(** * Agent configuration store of the LiveKit dashboard

    A shallow embedding of [app/services/agent_service.py] (the JSON backed
    store of agent configurations) and of the [test_agent] route of
    [app/routes/agents.py], followed by the properties of the store
    operations.

    Modelling decisions.
    - Python values read from or written to the JSON file are values of
      [pyval]: [None], booleans, integers, strings, lists and dictionaries
      with string keys (JSON floats are left out: no operation of the store
      computes with them).
    - A Python [dict] is an association list in insertion order; lookup
      takes the first binding of a key and assignment overwrites it in
      place or appends a new binding, which is what [dict.__setitem__]
      does to the iteration order.
    - The agents file is modelled at the level of what [json.load] makes of
      it: it is missing, it holds text in which [json.load] finds a syntax
      error (JSONDecodeError), it holds content on which reading fails with
      another exception (bytes that are no UTF-8, nesting too deep for the
      parser, an integer with too many digits), or it holds a JSON
      document.  [json.dump] followed by [json.load] is the identity
      on [pyval].  The data directory is taken to exist and to be readable
      and writable.
    - Exceptions are values: every operation returns an [outcome] together
      with the world it leaves behind, so that a write that happens before
      an exception stays visible.
    - [uuid.uuid4] draws 128 bits from the entropy of the world. *)

From Stdlib Require Import ZArith Ascii String List Lia.
From stdpp Require Import base tactics option list strings.

Local Open Scope string_scope.
Local Open Scope list_scope.
Local Open Scope nat_scope.

(** ** Python values *)

#[warnings="-register-all"]
Inductive pyval : Type :=
| PNone
| PBool (b : bool)
| PInt (z : Z)
| PStr (s : string)
| PList (l : list pyval)
| PDict (d : list (string * pyval)).

Abbreviation dict := (list (string * pyval)).

(** [bool(v)]: the truth value Python gives to [v] in [if], [not], [or]. *)
Definition truthy (v : pyval) : bool :=
  match v with
  | PNone => false
  | PBool b => b
  | PInt z => negb (Z.eqb z 0)
  | PStr s => negb (String.eqb s "")
  | PList l => match l with [] => false | _ => true end
  | PDict d => match d with [] => false | _ => true end
  end.

(** [v is None] *)
Definition is_none (v : pyval) : bool :=
  match v with PNone => true | _ => false end.

(** [v == s] for a string [s]: only an equal string compares equal. *)
Definition eq_str (v : pyval) (s : string) : bool :=
  match v with PStr t => String.eqb t s | _ => false end.

(** ** Dictionaries *)

(** [d.get(k)], with [None] standing for Python's [None] default. *)
Fixpoint dict_get (d : dict) (k : string) : option pyval :=
  match d with
  | [] => None
  | (k', v) :: rest => if String.eqb k' k then Some v else dict_get rest k
  end.

(** [d.get(k, default)] *)
Definition dict_get_default (d : dict) (k : string) (default : pyval) : pyval :=
  match dict_get d k with Some v => v | None => default end.

(** [d[k] = v] *)
Fixpoint dict_set (d : dict) (k : string) (v : pyval) : dict :=
  match d with
  | [] => [(k, v)]
  | (k', v') :: rest =>
      if String.eqb k' k then (k', v) :: rest else (k', v') :: dict_set rest k v
  end.

(** ** Exceptions and the world *)

Inductive exn : Type :=
| AttributeError
| TypeError
| HTTPException (status : Z)
| UnicodeDecodeError
| RecursionError
| ValueError.

Inductive outcome (A : Type) : Type :=
| Return (a : A)
| Raise (e : exn).
Arguments Return {A} a.
Arguments Raise {A} e.

(** What is at the path [data_dir / "agents.json"]. *)
Inductive file : Type :=
| Missing                      (* [open] raises FileNotFoundError *)
| Malformed (text : string)    (* [json.load] raises JSONDecodeError *)
| Json (doc : pyval)           (* [json.load] returns [doc] *)
| Unreadable (e : exn).        (* reading raises [e], which is neither of the
                                  two exceptions [_load_agents] catches *)

(** Calls made on the LiveKit client. *)
Inductive lk_call : Type :=
| CreateRoom (name : string) (empty_timeout max_participants : Z) (metadata : string)
| GenerateToken (room identity name : string) (ttl : Z).

Record world : Type := World {
  agents_file : file;          (* content of the agents file *)
  writes : nat;                (* how often the file was opened for writing *)
  urandom : nat -> Z;          (* the n-th draw of [os.urandom(16)], as an integer *)
  draws : nat;                 (* draws made so far *)
  lk_calls : list lk_call;     (* calls made on the LiveKit client, oldest first *)
}.

Definition M (A : Type) : Type := world -> outcome A * world.

Definition ret {A} (a : A) : M A := fun w => (Return a, w).
Definition raise {A} (e : exn) : M A := fun w => (Raise e, w).
Definition bind {A B} (m : M A) (k : A -> M B) : M B :=
  fun w => match m w with
           | (Return a, w') => k a w'
           | (Raise e, w') => (Raise e, w')
           end.
Definition lift {A} (o : outcome A) : M A := fun w => (o, w).

Notation "x <- m ;; k" := (bind m (fun x => k))
  (at level 100, m at next level, right associativity).

(** ** uuid *)

Definition hex_digit (n : Z) : ascii :=
  ascii_of_nat (Z.to_nat (if Z.ltb n 10 then 48 + n else 87 + n)%Z).

(** The [digits] lowest hexadecimal digits of [z], most significant first,
    in front of [acc]. *)
Fixpoint hex_of (digits : nat) (z : Z) (acc : string) : string :=
  match digits with
  | O => acc
  | S n => hex_of n (z / 16) (String (hex_digit (z mod 16)) acc)
  end.

Module uuid.

(** [UUID(bytes=os.urandom(16), version=4).int] *)
Definition uuid4 (bytes : Z) : Z :=
  let int := (bytes mod 2 ^ 128)%Z in
  let int := Z.ldiff int (Z.shiftl 0xc000%Z 48) in
  let int := Z.lor int (Z.shiftl 0x8000%Z 48) in
  let int := Z.ldiff int (Z.shiftl 0xf000%Z 64) in
  Z.lor int (Z.shiftl 4 76).

(** [UUID.hex]: ['%032x' % self.int] *)
Definition hex (int : Z) : string := hex_of 32 int "".

(** [str(UUID)] *)
Definition str (int : Z) : string :=
  let h := hex int in
  substring 0 8 h +:+ "-" +:+ substring 8 4 h +:+ "-" +:+ substring 12 4 h
    +:+ "-" +:+ substring 16 4 h +:+ "-" +:+ substring 20 12 h.

End uuid.

(** [uuid.uuid4()] as an action on the world. *)
Definition uuid4 : M Z :=
  fun w => (Return (uuid.uuid4 (urandom w (draws w))),
            World (agents_file w) (writes w) (urandom w) (S (draws w)) (lk_calls w)).

(** ** AgentConfig *)

Module AgentConfig.

Record t : Type := mk {
  id : pyval;
  name : pyval;
  enabled : pyval;
  model_provider : pyval;
  model : pyval;
  voice : pyval;
  first_message : pyval;
  noise_cancellation : pyval;
  n8n_mcp_url : pyval;
  metadata : pyval;
}.

(** The parameters of [__init__]. *)
Definition fields : list string :=
  ["id"; "name"; "enabled"; "model_provider"; "model"; "voice";
   "first_message"; "noise_cancellation"; "n8n_mcp_url"; "metadata"].

(** [self.id = id or str(uuid.uuid4())] *)
Definition id_or_fresh (id : pyval) : M pyval :=
  if truthy id then ret id
  else (u <- uuid4 ;; ret (PStr (uuid.str u))).

Definition __init__
    (id name enabled model_provider model voice first_message
     noise_cancellation n8n_mcp_url metadata : pyval) : M t :=
  id' <- id_or_fresh id ;;
  ret (mk id' name enabled model_provider model voice first_message
          noise_cancellation n8n_mcp_url metadata).

Definition to_dict (self : t) : dict :=
  [("id", id self); ("name", name self); ("enabled", enabled self);
   ("model_provider", model_provider self); ("model", model self);
   ("voice", voice self); ("first_message", first_message self);
   ("noise_cancellation", noise_cancellation self);
   ("n8n_mcp_url", n8n_mcp_url self); ("metadata", metadata self)].

(** Every keyword passed by [from_dict] names a parameter of [__init__]. *)
Definition known_keys (data : dict) : bool :=
  forallb (fun kv => existsb (String.eqb (fst kv)) fields) data.

(** The call of [cls] on the keywords [data]: an unknown keyword is a
    TypeError, a missing one takes the default of its parameter. *)
Definition call_kwargs (data : dict) : M t :=
  if known_keys data then
    __init__
      (dict_get_default data "id" PNone)
      (dict_get_default data "name" (PStr ""))
      (dict_get_default data "enabled" (PBool true))
      (dict_get_default data "model_provider" (PStr "google"))
      (dict_get_default data "model" (PStr "gemini-2.0-flash-exp"))
      (dict_get_default data "voice" (PStr "Puck"))
      (dict_get_default data "first_message" (PStr "Hello! How can I help you today?"))
      (dict_get_default data "noise_cancellation" (PBool true))
      (dict_get_default data "n8n_mcp_url" (PStr ""))
      (dict_get_default data "metadata" (PStr ""))
  else raise TypeError.

(** [from_dict(data)]: [data] is whatever was in the list of the file;
    unpacking it as keywords needs a mapping. *)
Definition from_dict (data : pyval) : M t :=
  match data with
  | PDict d => call_kwargs d
  | _ => raise TypeError
  end.

End AgentConfig.

(** ** What the store does with the values it finds in the file *)

(** [iter(v)]: the elements a [for] loop or a comprehension visits. *)
Definition py_iter (v : pyval) : outcome (list pyval) :=
  match v with
  | PList l => Return l
  | PStr s => Return (map (fun c => PStr (String c "")) (list_ascii_of_string s))
  | PDict d => Return (map (fun kv => PStr (fst kv)) d)
  | _ => Raise TypeError
  end.

(** [len(v)] *)
Definition py_len (v : pyval) : outcome nat :=
  match v with
  | PList l => Return (length l)
  | PStr s => Return (String.length s)
  | PDict d => Return (length d)
  | _ => Raise TypeError
  end.

(** [agent_data.get("id") == agent_id] on a dictionary. *)
Definition id_is (agent_data : dict) (agent_id : string) : bool :=
  eq_str (dict_get_default agent_data "id" PNone) agent_id.

(** The loop of [update_agent] over [kwargs.items()]. *)
Definition apply_kwargs (agent_data : dict) (kwargs : dict) : dict :=
  fold_left
    (fun data kv => if is_none (snd kv) then data else dict_set data (fst kv) (snd kv))
    kwargs agent_data.

(** [[f(a) for a in l]] for an [f] that acts on the world. *)
Fixpoint for_each {A B} (f : A -> M B) (l : list A) : M (list B) :=
  match l with
  | [] => ret []
  | a :: rest => b <- f a ;; bs <- for_each f rest ;; ret (b :: bs)
  end.

(** ** AgentService *)

Module AgentService.

Definition _load_agents : M pyval :=
  fun w =>
    match agents_file w with
    | Missing => (Return (PList []), w)
    | Malformed _ => (Return (PList []), w)
    | Json (PDict data) => (Return (dict_get_default data "agents" (PList [])), w)
    | Json _ => (Raise AttributeError, w)
    | Unreadable e => (Raise e, w)
    end.

Definition _save_agents (agents : pyval) : M unit :=
  fun w =>
    (Return tt,
     World (Json (PDict [("agents", agents)])) (S (writes w))
           (urandom w) (draws w) (lk_calls w)).

Definition _ensure_data_dir : M unit :=
  fun w =>
    match agents_file w with
    | Missing => _save_agents (PList []) w
    | _ => (Return tt, w)
    end.

Definition list_agents : M (list AgentConfig.t) :=
  agents_data <- _load_agents ;;
  items <- lift (py_iter agents_data) ;;
  for_each AgentConfig.from_dict items.

(** The loop of [get_agent]. *)
Fixpoint get_agent_loop (agents : list pyval) (agent_id : string)
    : M (option AgentConfig.t) :=
  match agents with
  | [] => ret None
  | PDict agent_data :: rest =>
      if id_is agent_data agent_id
      then (c <- AgentConfig.from_dict (PDict agent_data) ;; ret (Some c))
      else get_agent_loop rest agent_id
  | _ :: _ => raise AttributeError
  end.

Definition get_agent (agent_id : string) : M (option AgentConfig.t) :=
  agents <- _load_agents ;;
  items <- lift (py_iter agents) ;;
  get_agent_loop items agent_id.

Definition create_agent (config : AgentConfig.t) : M AgentConfig.t :=
  agents <- _load_agents ;;
  match agents with
  | PList l =>
      _ <- _save_agents (PList (l ++ [PDict (AgentConfig.to_dict config)])) ;;
      ret config
  | _ => raise AttributeError
  end.

(** The loop of [update_agent] from index [i] on; [agents] is the whole
    list, [rest] what is left of it to visit. *)
Fixpoint update_agent_loop (agents : list pyval) (i : nat) (rest : list pyval)
    (agent_id : string) (kwargs : dict) : M (option AgentConfig.t) :=
  match rest with
  | [] => ret None
  | PDict agent_data :: rest' =>
      if id_is agent_data agent_id then
        let agent_data := apply_kwargs agent_data kwargs in
        let agents := <[i := PDict agent_data]> agents in
        _ <- _save_agents (PList agents) ;;
        c <- AgentConfig.from_dict (PDict agent_data) ;;
        ret (Some c)
      else update_agent_loop agents (S i) rest' agent_id kwargs
  | _ :: _ => raise AttributeError
  end.

(** The body of [update_agent]; [kwargs] are the keywords of the call that
    Python has not bound to [self] or [agent_id] (see [call_update_agent]
    below for the call itself). *)
Definition update_agent (agent_id : string) (kwargs : dict)
    : M (option AgentConfig.t) :=
  agents <- _load_agents ;;
  items <- lift (py_iter agents) ;;
  update_agent_loop items 0 items agent_id kwargs.

(** [[a for a in agents if a.get("id") != agent_id]] *)
Fixpoint keep_others (agents : list pyval) (agent_id : string)
    : outcome (list pyval) :=
  match agents with
  | [] => Return []
  | PDict a :: rest =>
      match keep_others rest agent_id with
      | Return kept => Return (if id_is a agent_id then kept else PDict a :: kept)
      | Raise e => Raise e
      end
  | _ :: _ => Raise AttributeError
  end.

Definition delete_agent (agent_id : string) : M bool :=
  agents <- _load_agents ;;
  original_len <- lift (py_len agents) ;;
  items <- lift (py_iter agents) ;;
  agents <- lift (keep_others items agent_id) ;;
  if Nat.ltb (length agents) original_len
  then (_ <- _save_agents (PList agents) ;; ret true)
  else ret false.

(** The loop of [toggle_agent]. *)
Fixpoint toggle_agent_loop (agents : list pyval) (i : nat) (rest : list pyval)
    (agent_id : string) : M (option AgentConfig.t) :=
  match rest with
  | [] => ret None
  | PDict agent_data :: rest' =>
      if id_is agent_data agent_id then
        let agent_data :=
          dict_set agent_data "enabled"
            (PBool (negb (truthy (dict_get_default agent_data "enabled" (PBool true))))) in
        let agents := <[i := PDict agent_data]> agents in
        _ <- _save_agents (PList agents) ;;
        c <- AgentConfig.from_dict (PDict agent_data) ;;
        ret (Some c)
      else toggle_agent_loop agents (S i) rest' agent_id
  | _ :: _ => raise AttributeError
  end.

Definition toggle_agent (agent_id : string) : M (option AgentConfig.t) :=
  agents <- _load_agents ;;
  items <- lift (py_iter agents) ;;
  toggle_agent_loop items 0 items agent_id.

Definition get_enabled_agents : M (list AgentConfig.t) :=
  agents <- list_agents ;;
  ret (filter (fun a => truthy (AgentConfig.enabled a) = true) agents).

End AgentService.

(** ** Calling update_agent with keywords *)

(** The names of the parameters of [update_agent] in front of its
    keyword dictionary. *)
Definition is_parameter_name (k : string) : bool :=
  String.eqb k "self" || String.eqb k "agent_id".

(** The call [service.update_agent(agent_id, ...keywords...)]: Python binds
    the arguments before the body runs, and a keyword that names one of
    the parameters [self] and [agent_id] is a TypeError (the argument would
    get two values). [AgentService.update_agent] is the body, entered with
    the other keywords as its [kwargs]. *)
Definition call_update_agent (agent_id : string) (keywords : dict)
    : M (option AgentConfig.t) :=
  if existsb (fun kv => is_parameter_name (fst kv)) keywords
  then raise TypeError
  else AgentService.update_agent agent_id keywords.

(** ** The test route of the admin controller *)

(** [urllib.parse.quote(s)] on the bytes of [s], with the default
    [safe="/"]: letters, digits and [_.-~/] are kept, every other byte
    becomes [%XX]. *)
Definition is_safe (c : ascii) : bool :=
  let n := nat_of_ascii c in
  (Nat.leb 65 n && Nat.leb n 90) || (Nat.leb 97 n && Nat.leb n 122)
  || (Nat.leb 48 n && Nat.leb n 57)
  || Nat.eqb n 95 || Nat.eqb n 46 || Nat.eqb n 45 || Nat.eqb n 126 || Nat.eqb n 47.

Definition hex_upper (n : nat) : ascii :=
  ascii_of_nat (if Nat.ltb n 10 then 48 + n else 55 + n).

Fixpoint quote (s : string) : string :=
  match s with
  | "" => ""
  | String c rest =>
      if is_safe c then String c (quote rest)
      else
        let n := nat_of_ascii c in
        String "%" (String (hex_upper (n / 16)) (String (hex_upper (n mod 16)) (quote rest)))
  end.

(** The double quote character, as a string. *)
Definition dquote : string := String (ascii_of_nat 34) "".

(** What a call of a collaborator comes back with. *)
Inductive ext (A : Type) : Type :=
| Returns (a : A)
| Fails (message : string).    (* raised an exception [e] with [str(e) = message] *)
Arguments Returns {A} a.
Arguments Fails {A} message.

(** The collaborators of a request, none of which is code of the module:
    the admin guard, the CSRF check, the environment, the LiveKit client
    and Python's [str]. *)
Record collaborators : Type := {
  is_admin : bool;
  csrf_matches : string -> bool;
  get_csrf_token : string;
  LIVEKIT_URL : option string;
  create_room : string -> Z -> Z -> string -> ext unit;
  generate_token : string -> string -> string -> Z -> ext string;
  py_str : pyval -> string;
}.

Inductive response : Type :=
| RedirectResponse (url : string) (status_code : Z)
| TemplateResponse (template : string) (agent : AgentConfig.t)
    (room_name token livekit_url csrf_token : string).

(** Modelled from the spec: the decorator [requires_admin] of
    [app/security/basic_auth.py], which is not part of the sources; a request
    without valid admin credentials is answered 401 before the route runs. *)
Definition requires_admin (deps : collaborators) : M unit :=
  if is_admin deps then ret tt else raise (HTTPException 401).

(** Modelled from the spec: [verify_csrf_token] of [app/security/csrf.py],
    which is not part of the sources; it raises when the submitted token does
    not match the one of the session. *)
Definition verify_csrf_token (deps : collaborators) (csrf_token : string) : M unit :=
  if csrf_matches deps csrf_token then ret tt else raise (HTTPException 403).

(** [await lk.create_room(...)], logged. *)
Definition lk_create_room (deps : collaborators)
    (name : string) (empty_timeout max_participants : Z) (metadata : string)
    : M (ext unit) :=
  fun w =>
    (Return (create_room deps name empty_timeout max_participants metadata),
     World (agents_file w) (writes w) (urandom w) (draws w)
           (lk_calls w ++ [CreateRoom name empty_timeout max_participants metadata])).

(** [lk.generate_token(...)], logged. *)
Definition lk_generate_token (deps : collaborators)
    (room identity name : string) (ttl : Z) : M (ext string) :=
  fun w =>
    (Return (generate_token deps room identity name ttl),
     World (agents_file w) (writes w) (urandom w) (draws w)
           (lk_calls w ++ [GenerateToken room identity name ttl])).

(** The redirect to the list page with an error flash. *)
Definition error_flash (text : string) : response :=
  RedirectResponse ("/agents?flash_message=" +:+ quote text +:+ "&flash_type=error") 303.

Definition test_agent (deps : collaborators) (agent_id csrf_token : string)
    : M response :=
  _ <- requires_admin deps ;;
  _ <- verify_csrf_token deps csrf_token ;;
  agent <- AgentService.get_agent agent_id ;;
  match agent with
  | None => ret (error_flash "Agent not found")
  | Some agent =>
      if negb (truthy (AgentConfig.enabled agent)) then
        ret (error_flash "Agent is disabled. Enable it first to test.")
      else
        u <- uuid4 ;;
        let test_room_name := "agent-test-" +:+ substring 0 8 (uuid.hex u) in
        room <- lk_create_room deps test_room_name 300 2
                  ("{" +:+ dquote +:+ "test_agent" +:+ dquote +:+ ": " +:+ dquote
                   +:+ py_str deps (AgentConfig.name agent) +:+ dquote +:+ "}") ;;
        match room with
        | Fails e => ret (error_flash ("Error creating test room: " +:+ e))
        | Returns _ =>
            token <- lk_generate_token deps test_room_name "test-user" "Test User" 300 ;;
            match token with
            | Fails e => ret (error_flash ("Error creating test room: " +:+ e))
            | Returns token =>
                ret (TemplateResponse "agents/test.html.j2" agent test_room_name token
                       (default "" (LIVEKIT_URL deps)) (get_csrf_token deps))
            end
        end
  end.

(** ** The catalogs of the service *)

(** [AgentService.MODEL_PROVIDERS]: provider key, display name, models. *)
Definition MODEL_PROVIDERS : list (string * (string * list string)) :=
  [("google", ("Google Gemini",
      ["gemini-2.0-flash-exp"; "gemini-1.5-pro"; "gemini-1.5-flash"]));
   ("openai", ("OpenAI",
      ["gpt-4o"; "gpt-4o-mini"; "gpt-4-turbo"; "gpt-3.5-turbo"]));
   ("anthropic", ("Anthropic",
      ["claude-3-5-sonnet-latest"; "claude-3-5-haiku-latest"; "claude-3-opus-latest"]));
   ("groq", ("Groq",
      ["llama-3.3-70b-versatile"; "llama-3.1-8b-instant"; "mixtral-8x7b-32768"]));
   ("deepseek", ("DeepSeek", ["deepseek-chat"; "deepseek-reasoner"]))].

(** [AgentService.VOICES]: provider key, voices. *)
Definition VOICES : list (string * list string) :=
  [("google", ["Puck"; "Charon"; "Kore"; "Fenrir"; "Aoede"]);
   ("openai", ["alloy"; "echo"; "fable"; "onyx"; "nova"; "shimmer"]);
   ("elevenlabs", ["Rachel"; "Drew"; "Clyde"; "Paul"; "Antoni"]);
   ("cartesia", ["sonic-english"; "sonic-multilingual"])].

Definition get_model_providers : list (string * (string * list string)) :=
  MODEL_PROVIDERS.

Definition get_voices : list (string * list string) := VOICES.

(** [catalog.get(key)] on a catalog. *)
Fixpoint catalog_get {A} (catalog : list (string * A)) (key : string) : option A :=
  match catalog with
  | [] => None
  | (k, a) :: rest => if String.eqb k key then Some a else catalog_get rest key
  end.

(** ** The other routes of the admin controller *)

(** [try: body / except Exception as e: handler(e)]: what the body did to
    the world before it raised stays done. *)
Definition try_except {A} (body : M A) (handler : exn -> M A) : M A :=
  fun w => match body w with
           | (Return a, w') => (Return a, w')
           | (Raise e, w') => handler e w'
           end.

(** [str.lower()] on the bytes of a string: the letters A to Z are mapped
    to a to z. Python also lowers letters outside ASCII, none of which
    becomes one of the letters of the word compared with below. *)
Definition lower_char (c : ascii) : ascii :=
  let n := nat_of_ascii c in
  if Nat.leb 65 n && Nat.leb n 90 then ascii_of_nat (n + 32) else c.

Fixpoint lower (s : string) : string :=
  match s with
  | "" => ""
  | String c rest => String (lower_char c) (lower rest)
  end.

(** The redirect to the list page with a flash of the given type. *)
Definition flash_redirect (text flash_type : string) : response :=
  RedirectResponse
    ("/agents?flash_message=" +:+ quote text +:+ "&flash_type=" +:+ flash_type) 303.

(** What the list route answers with. *)
Inductive index_response : Type :=
| FeatureDisabledPage (template error : string) (status_code : Z)
| IndexPage (template : string) (agents : list AgentConfig.t)
    (model_providers : list (string * (string * list string)))
    (voices : list (string * list string))
    (flash_message flash_type : option string) (csrf_token : string).

Module routes.

(** [environ] is [os.environ.get]. *)
Definition is_agents_enabled (environ : string -> option string) : bool :=
  String.eqb (lower (default "true" (environ "ENABLE_AGENTS"))) "true".

Definition agents_index (deps : collaborators) (environ : string -> option string)
    (flash_message flash_type : option string) : M index_response :=
  _ <- requires_admin deps ;;
  if negb (is_agents_enabled environ) then
    ret (FeatureDisabledPage "base.html.j2"
           "Agents feature is not enabled. Set ENABLE_AGENTS=true." 403)
  else
    agents <- AgentService.list_agents ;;
    ret (IndexPage "agents/index.html.j2" agents get_model_providers get_voices
           flash_message flash_type (get_csrf_token deps)).

(** [str_exn] is Python's [str] on an exception. *)
Definition create_agent (deps : collaborators) (str_exn : exn -> string)
    (csrf_token name model_provider model voice first_message : string)
    (noise_cancellation : bool) (n8n_mcp_url metadata : option string)
    : M response :=
  _ <- requires_admin deps ;;
  _ <- verify_csrf_token deps csrf_token ;;
  try_except
    (agent <- AgentConfig.__init__ PNone (PStr name) (PBool true)
                (PStr model_provider) (PStr model) (PStr voice) (PStr first_message)
                (PBool noise_cancellation) (PStr (default "" n8n_mcp_url))
                (PStr (default "" metadata)) ;;
     _ <- AgentService.create_agent agent ;;
     ret (flash_redirect ("Agent '" +:+ name +:+ "' created successfully") "success"))
    (fun e => ret (flash_redirect ("Error creating agent: " +:+ str_exn e) "error")).

(** The keywords the update route passes to the store. *)
Definition update_kwargs (name model_provider model voice first_message : string)
    (noise_cancellation : bool) (n8n_mcp_url metadata : option string) : dict :=
  [("name", PStr name); ("model_provider", PStr model_provider);
   ("model", PStr model); ("voice", PStr voice);
   ("first_message", PStr first_message);
   ("noise_cancellation", PBool noise_cancellation);
   ("n8n_mcp_url", PStr (default "" n8n_mcp_url));
   ("metadata", PStr (default "" metadata))].

Definition update_agent (deps : collaborators) (str_exn : exn -> string)
    (agent_id csrf_token name model_provider model voice first_message : string)
    (noise_cancellation : bool) (n8n_mcp_url metadata : option string)
    : M response :=
  _ <- requires_admin deps ;;
  _ <- verify_csrf_token deps csrf_token ;;
  try_except
    (updated <- AgentService.update_agent agent_id
                  (update_kwargs name model_provider model voice first_message
                     noise_cancellation n8n_mcp_url metadata) ;;
     match updated with
     | Some _ =>
         ret (flash_redirect ("Agent '" +:+ name +:+ "' updated successfully") "success")
     | None => ret (flash_redirect "Agent not found" "error")
     end)
    (fun e => ret (flash_redirect ("Error updating agent: " +:+ str_exn e) "error")).

Definition delete_agent (deps : collaborators) (str_exn : exn -> string)
    (agent_id csrf_token : string) : M response :=
  _ <- requires_admin deps ;;
  _ <- verify_csrf_token deps csrf_token ;;
  try_except
    (deleted <- AgentService.delete_agent agent_id ;;
     if deleted : bool
     then ret (flash_redirect "Agent deleted successfully" "success")
     else ret (flash_redirect "Agent not found" "error"))
    (fun e => ret (flash_redirect ("Error deleting agent: " +:+ str_exn e) "error")).

Definition toggle_agent (deps : collaborators) (str_exn : exn -> string)
    (agent_id csrf_token : string) : M response :=
  _ <- requires_admin deps ;;
  _ <- verify_csrf_token deps csrf_token ;;
  try_except
    (agent <- AgentService.toggle_agent agent_id ;;
     match agent with
     | Some agent =>
         let status :=
           if truthy (AgentConfig.enabled agent) then "enabled" else "disabled" in
         ret (flash_redirect
                ("Agent '" +:+ py_str deps (AgentConfig.name agent) +:+ "' " +:+ status)
                "success")
     | None => ret (flash_redirect "Agent not found" "error")
     end)
    (fun e => ret (flash_redirect ("Error toggling agent: " +:+ str_exn e) "error")).

End routes.

(** * Vocabulary of the properties *)

(** [c] shows [d]: every field stored in [d] is the field of [c], the id
    provided it is truthy. *)
Definition shows (c : AgentConfig.t) (d : dict) : Prop :=
  ∀ k v, dict_get d k = Some v → (k = "id" → truthy v = true) →
         dict_get (AgentConfig.to_dict c) k = Some v.

(** The world after one more draw of entropy. *)
Definition drawn (w : world) : world :=
  World (agents_file w) (writes w) (urandom w) (S (draws w)) (lk_calls w).

(** The identifier the next draw of entropy gives. *)
Definition next_id (w : world) : pyval :=
  PStr (uuid.str (uuid.uuid4 (urandom w (draws w)))).

(** The file that [_save_agents] writes for the record sequence [recs]. *)
Definition store (recs : list dict) : file :=
  Json (PDict [("agents", PList (PDict <$> recs))]).

(** The agents file of [w] holds the record sequence [recs]: that is what
    [_load_agents] reads. *)
Definition holds (w : world) (recs : list dict) : Prop :=
  AgentService._load_agents w = (Return (PList (PDict <$> recs)), w).

(** The world after a write of [f]. *)
Definition written (f : file) (w : world) : world :=
  World f (S (writes w)) (urandom w) (draws w) (lk_calls w).

(** [d] is the first record of [recs] with the id [agent_id], at index [i]. *)
Definition first_with_id (recs : list dict) (agent_id : string) (i : nat) (d : dict)
    : Prop :=
  recs !! i = Some d ∧ id_is d agent_id = true
  ∧ ∀ j d', j < i → recs !! j = Some d' → id_is d' agent_id = false.

(** No record of [recs] has the id [agent_id]. *)
Definition no_id (recs : list dict) (agent_id : string) : Prop :=
  ∀ d, d ∈ recs → id_is d agent_id = false.

(** The id of every record, in store order; a record without one counts as
    [None], which is what [agent_data.get("id")] gives. *)
Definition ids (recs : list dict) : list pyval :=
  (λ d, dict_get_default d "id" PNone) <$> recs.

(** The ids of the records are pairwise distinct. *)
Definition unique_ids (recs : list dict) : Prop := NoDup (ids recs).

(** The record [toggle_agent] stores in place of [d]. *)
Definition toggled (d : dict) : dict :=
  dict_set d "enabled"
    (PBool (negb (truthy (dict_get_default d "enabled" (PBool true))))).

(** The records [delete_agent] keeps. *)
Definition others (agent_id : string) (recs : list dict) : list dict :=
  filter (λ d, id_is d agent_id = false) recs.

(** [needle in text] on strings. *)
Fixpoint contains (needle text : string) : bool :=
  if String.prefix needle text then true
  else match text with
       | "" => false
       | String _ rest => contains needle rest
       end.

(** The mutating operations of the store, as requests. *)
Inductive operation : Type :=
| Create (config : AgentConfig.t)
| Update (agent_id : string) (kwargs : dict)
| Delete (agent_id : string)
| Toggle (agent_id : string).

(** The world an operation leaves behind, whatever it returns or raises. *)
Definition perform (o : operation) (w : world) : world :=
  match o with
  | Create config => (AgentService.create_agent config w).2
  | Update agent_id kwargs => (AgentService.update_agent agent_id kwargs w).2
  | Delete agent_id => (AgentService.delete_agent agent_id w).2
  | Toggle agent_id => (AgentService.toggle_agent agent_id w).2
  end.

Definition perform_all (ops : list operation) (w : world) : world :=
  fold_left (λ w o, perform o w) ops w.

(** An operation that cannot introduce a second record with an id already
    in [recs]: a create brings an id that is not stored yet, an update does
    not assign the id. *)
Definition keeps_ids_apart (recs : list dict) (o : operation) : Prop :=
  match o with
  | Create config => AgentConfig.id config ∉ ids recs
  | Update _ kwargs => ∀ v, ("id", v) ∈ kwargs → v = PNone
  | Delete _ | Toggle _ => True
  end.

(** Every operation of [ops] keeps ids apart in the store it meets. *)
Fixpoint all_keep_ids_apart (ops : list operation) (w : world) : Prop :=
  match ops with
  | [] => True
  | o :: rest =>
      (∀ recs, holds w recs → keeps_ids_apart recs o)
      ∧ all_keep_ids_apart rest (perform o w)
  end.

(** ** Sample data *)

Definition alice : dict :=
  [("id", PStr "a1"); ("name", PStr "Alice"); ("enabled", PBool true);
   ("model_provider", PStr "google"); ("model", PStr "gemini-1.5-pro");
   ("voice", PStr "Kore"); ("first_message", PStr "Hi"); ("noise_cancellation", PBool true);
   ("n8n_mcp_url", PStr ""); ("metadata", PStr "")].

Definition bob : dict :=
  [("id", PStr "b2"); ("name", PStr "Bob"); ("enabled", PBool false);
   ("model_provider", PStr "openai"); ("model", PStr "gpt-4o");
   ("voice", PStr "alloy"); ("first_message", PStr "Hello"); ("noise_cancellation", PBool false);
   ("n8n_mcp_url", PStr ""); ("metadata", PStr "m")].

(** A record whose stored id is the empty string. *)
Definition anonymous : dict :=
  [("id", PStr ""); ("name", PStr "Nobody"); ("enabled", PBool true)].

Definition carol : AgentConfig.t :=
  AgentConfig.mk (PStr "c3") (PStr "Carol") (PBool true) (PStr "groq")
    (PStr "llama-3.1-8b-instant") (PStr "Puck") (PStr "Hey") (PBool false)
    (PStr "") (PStr "").

(** A configuration that carries the id of [alice]. *)
Definition twin : AgentConfig.t :=
  AgentConfig.mk (PStr "a1") (PStr "Twin") (PBool true) (PStr "google")
    (PStr "gemini-1.5-flash") (PStr "Puck") (PStr "Hi") (PBool true)
    (PStr "") (PStr "").

(** A world whose agents file is [f]; nothing written, drawn or called yet. *)
Definition world_with (f : file) : world :=
  World f 0 (λ n, Z.of_nat n) 0 [].

Definition sample_world : world := world_with (store [alice; bob]).

(** Collaborators that let the request through and whose LiveKit client
    answers. *)
Definition sample_deps : collaborators :=
  {| is_admin := true;
     csrf_matches := λ t, String.eqb t "tok";
     get_csrf_token := "tok";
     LIVEKIT_URL := Some "wss://lk";
     create_room := λ _ _ _ _, Returns tt;
     generate_token := λ _ _ _ _, Returns "jwt";
     py_str := λ v, match v with PStr s => s | _ => "" end |}.

(** Closing goals about the sample data. *)
Ltac first_here :=
  split; [reflexivity|]; split; [reflexivity|];
  let j := fresh "j" in let d := fresh "d" in
  let Hj := fresh "Hj" in let Hd := fresh "Hd" in
  intros j d Hj Hd;
  repeat (destruct j as [|j]; [simpl in Hd; injection Hd as <-; reflexivity|]);
  simpl in Hj; lia.

Ltac none_here :=
  let d := fresh "d" in let Hd := fresh "Hd" in
  intros d Hd;
  repeat (apply elem_of_cons in Hd as [->|Hd]; [reflexivity|]);
  by apply elem_of_nil in Hd.

Ltac decided := apply (bool_decide_unpack _); vm_compute; exact I.

(** ** Vocabulary of the further properties *)

(** An operation whose keywords, if it has any, all name fields of
    AgentConfig. *)
Definition keeps_known_keys (o : operation) : Prop :=
  match o with
  | Update _ kwargs => AgentConfig.known_keys kwargs = true
  | Create _ | Delete _ | Toggle _ => True
  end.

(** The three things a read must leave alone. *)
Definition same_store_and_calls (w w' : world) : Prop :=
  agents_file w' = agents_file w ∧ writes w' = writes w ∧ lk_calls w' = lk_calls w.

(** The route answered, without raising, by a redirect to the list page
    that carries a success or an error flash. *)
Definition flashes (r : outcome response * world) : Prop :=
  ∃ text flash_type,
    r.1 = Return (flash_redirect text flash_type)
    ∧ (flash_type = "success" ∨ flash_type = "error").

(** The record the create route stores for a form, under the id [id]. *)
Definition created_record (id : pyval)
    (name model_provider model voice first_message : string)
    (noise_cancellation : bool) (n8n_mcp_url metadata : option string) : dict :=
  [("id", id); ("name", PStr name); ("enabled", PBool true);
   ("model_provider", PStr model_provider); ("model", PStr model);
   ("voice", PStr voice); ("first_message", PStr first_message);
   ("noise_cancellation", PBool noise_cancellation);
   ("n8n_mcp_url", PStr (default "" n8n_mcp_url));
   ("metadata", PStr (default "" metadata))].

(** [c] is what reading the stored record [d] gives: every field of [c] is
    the value stored under its key, or the default of its parameter when
    the key is missing; the id is the stored one when that is truthy and a
    truthy generated one otherwise. *)
Definition reads_as (c : AgentConfig.t) (d : dict) : Prop :=
  (truthy (dict_get_default d "id" PNone) = true →
   AgentConfig.id c = dict_get_default d "id" PNone)
  ∧ truthy (AgentConfig.id c) = true
  ∧ AgentConfig.name c = dict_get_default d "name" (PStr "")
  ∧ AgentConfig.enabled c = dict_get_default d "enabled" (PBool true)
  ∧ AgentConfig.model_provider c = dict_get_default d "model_provider" (PStr "google")
  ∧ AgentConfig.model c = dict_get_default d "model" (PStr "gemini-2.0-flash-exp")
  ∧ AgentConfig.voice c = dict_get_default d "voice" (PStr "Puck")
  ∧ AgentConfig.first_message c
    = dict_get_default d "first_message" (PStr "Hello! How can I help you today?")
  ∧ AgentConfig.noise_cancellation c
    = dict_get_default d "noise_cancellation" (PBool true)
  ∧ AgentConfig.n8n_mcp_url c = dict_get_default d "n8n_mcp_url" (PStr "")
  ∧ AgentConfig.metadata c = dict_get_default d "metadata" (PStr "").

(** An environment in which only ENABLE_AGENTS may be set. *)
Definition environ_with (value : option string) : string → option string :=
  λ key, if String.eqb key "ENABLE_AGENTS" then value else None.

(** A rendering of exceptions as text. *)
Definition sample_str_exn (e : exn) : string :=
  match e with
  | AttributeError => "attribute"
  | TypeError => "type"
  | HTTPException _ => "http"
  | UnicodeDecodeError => "unicode"
  | RecursionError => "recursion"
  | ValueError => "value"
  end.

(** * Properties *)

(** ** Dictionaries *)

Lemma dict_get_set_eq (d : dict) (k : string) (v : pyval) :
  dict_get (dict_set d k v) k = Some v.
Proof.
  induction d as [|[k' v'] d IH]; simpl.
  - by rewrite String.eqb_refl.
  - destruct (String.eqb k' k) eqn:E; simpl; by rewrite E.
Qed.

Lemma dict_get_set_ne (d : dict) (k k' : string) (v : pyval) :
  k' ≠ k → dict_get (dict_set d k v) k' = dict_get d k'.
Proof.
  intros Hne. induction d as [|[k0 v0] d IH]; simpl.
  - destruct (String.eqb k k') eqn:E; [|done].
    apply String.eqb_eq in E. congruence.
  - destruct (String.eqb k0 k) eqn:E; simpl.
    + apply String.eqb_eq in E. subst k0.
      destruct (String.eqb k k') eqn:E'; [|done].
      apply String.eqb_eq in E'. congruence.
    + by rewrite IH.
Qed.

Lemma dict_set_same (d : dict) (k : string) (v : pyval) :
  dict_get d k = Some v → dict_set d k v = d.
Proof.
  induction d as [|[k' v'] d IH]; simpl; [done|].
  destruct (String.eqb k' k); intros H.
  - congruence.
  - by rewrite IH.
Qed.

Lemma dict_set_set (d : dict) (k : string) (v v' : pyval) :
  dict_set (dict_set d k v) k v' = dict_set d k v'.
Proof.
  induction d as [|[k0 v0] d IH]; simpl.
  - by rewrite String.eqb_refl.
  - destruct (String.eqb k0 k) eqn:E; simpl; rewrite E; [done|by rewrite IH].
Qed.

Lemma dict_get_default_set_ne (d : dict) (k k' : string) (v dflt : pyval) :
  k' ≠ k → dict_get_default (dict_set d k v) k' dflt = dict_get_default d k' dflt.
Proof. intros H. unfold dict_get_default. by rewrite dict_get_set_ne. Qed.

Lemma dict_get_default_set_eq (d : dict) (k : string) (v dflt : pyval) :
  dict_get_default (dict_set d k v) k dflt = v.
Proof. unfold dict_get_default. by rewrite dict_get_set_eq. Qed.

(** ** The keyword loop of update_agent *)

Lemma apply_kwargs_untouched (kwargs d : dict) (k : string) :
  (∀ v, (k, v) ∈ kwargs → v = PNone) →
  dict_get (apply_kwargs d kwargs) k = dict_get d k.
Proof.
  unfold apply_kwargs. revert d.
  induction kwargs as [|[k0 v0] kwargs IH]; intros d H; simpl; [done|].
  rewrite IH.
  - destruct (is_none v0) eqn:E; [done|].
    apply dict_get_set_ne. intros ->.
    rewrite (H v0) in E; [done|]. apply list_elem_of_here.
  - intros v Hv. apply H. by apply list_elem_of_further.
Qed.

Lemma is_none_false (v : pyval) : v ≠ PNone → is_none v = false.
Proof. by destruct v. Qed.

Lemma apply_kwargs_supplied (kwargs d : dict) (k : string) (v : pyval) :
  NoDup kwargs.*1 → (k, v) ∈ kwargs → v ≠ PNone →
  dict_get (apply_kwargs d kwargs) k = Some v.
Proof.
  unfold apply_kwargs. revert d.
  induction kwargs as [|[k0 v0] kwargs IH]; intros d Hnd Hin Hv; simpl.
  - by apply elem_of_nil in Hin.
  - apply NoDup_cons in Hnd as [Hk0 Hnd].
    apply elem_of_cons in Hin as [Heq|Hin].
    + injection Heq as <- <-. rewrite (is_none_false _ Hv).
      fold (apply_kwargs (dict_set d k v) kwargs).
      rewrite apply_kwargs_untouched; [apply dict_get_set_eq|].
      intros u Hu. exfalso. apply Hk0.
      apply list_elem_of_fmap. by exists (k, u).
    + by apply IH.
Qed.

(** ** Known keys *)

Lemma known_keys_spec (d : dict) :
  AgentConfig.known_keys d = true ↔ ∀ k, k ∈ d.*1 → k ∈ AgentConfig.fields.
Proof.
  unfold AgentConfig.known_keys. rewrite forallb_forall. split.
  - intros H k Hk. apply list_elem_of_fmap in Hk as [[k' v] [-> Hin]].
    apply list_elem_of_In in Hin. apply H in Hin.
    apply existsb_exists in Hin as [f [Hf Heq]].
    apply String.eqb_eq in Heq. simpl in Heq. subst f.
    by apply list_elem_of_In.
  - intros H [k v] Hin. apply existsb_exists. exists k. split.
    + apply list_elem_of_In, H, list_elem_of_fmap. exists (k, v).
      split; [done|]. by apply list_elem_of_In.
    + apply String.eqb_refl.
Qed.

Lemma dict_set_keys_incl (d : dict) (k : string) (v : pyval) (k' : string) :
  k' ∈ (dict_set d k v).*1 → k' = k ∨ k' ∈ d.*1.
Proof.
  induction d as [|[k0 v0] d IH]; simpl.
  - intros H. apply list_elem_of_singleton in H. by left.
  - destruct (String.eqb k0 k); simpl; intros H.
    + by right.
    + apply elem_of_cons in H as [->|H].
      * right. apply list_elem_of_here.
      * destruct (IH H) as [->|H']; [by left|].
        right. by apply list_elem_of_further.
Qed.

Lemma known_keys_set (d : dict) (k : string) (v : pyval) :
  AgentConfig.known_keys d = true → k ∈ AgentConfig.fields →
  AgentConfig.known_keys (dict_set d k v) = true.
Proof.
  rewrite !known_keys_spec. intros Hd Hk k' Hk'.
  apply dict_set_keys_incl in Hk' as [->|Hk']; auto.
Qed.

Lemma known_keys_apply_kwargs (kwargs d : dict) :
  AgentConfig.known_keys d = true → AgentConfig.known_keys kwargs = true →
  AgentConfig.known_keys (apply_kwargs d kwargs) = true.
Proof.
  unfold apply_kwargs. revert d.
  induction kwargs as [|[k v] kwargs IH]; intros d Hd Hkw; simpl; [done|].
  change (AgentConfig.known_keys ((k, v) :: kwargs)) with
    (existsb (String.eqb k) AgentConfig.fields && AgentConfig.known_keys kwargs) in Hkw.
  apply andb_prop in Hkw as [Hk Hkw].
  apply IH; [|done].
  destruct (is_none v); [done|].
  apply known_keys_set; [done|].
  apply existsb_exists in Hk as [f [Hf Heq]].
  apply String.eqb_eq in Heq. subst f. by apply list_elem_of_In.
Qed.

(** ** Generated identifiers *)

Lemma hex_of_length (digits : nat) (z : Z) (acc : string) :
  String.length (hex_of digits z acc) = digits + String.length acc.
Proof.
  revert z acc. induction digits as [|n IH]; intros z acc; simpl; [done|].
  rewrite IH. simpl. lia.
Qed.

Lemma substring_length (s : string) (n m : nat) :
  (n + m ≤ String.length s)%nat → String.length (substring n m s) = m.
Proof.
  revert n m. induction s as [|c s IH]; intros n m H; simpl in H.
  - assert (n = 0) as -> by lia. assert (m = 0) as -> by lia. done.
  - destruct n as [|n]; simpl.
    + destruct m as [|m]; simpl; [done|]. rewrite IH; [done|lia].
    + apply IH. lia.
Qed.

Lemma append_length (s t : string) :
  String.length (s +:+ t) = String.length s + String.length t.
Proof. induction s as [|c s IH]; simpl; [done|]. by rewrite IH. Qed.

(** [str(uuid.uuid4())] always has 36 characters. *)
Lemma uuid_str_length (int : Z) : String.length (uuid.str int) = 36.
Proof.
  unfold uuid.str, uuid.hex.
  assert (String.length (hex_of 32 int "") = 32) as Hlen
    by (rewrite hex_of_length; done).
  generalize dependent (hex_of 32 int ""). intros h Hlen.
  rewrite !append_length, !substring_length by lia. done.
Qed.

Lemma uuid_str_nonempty (int : Z) : uuid.str int ≠ "".
Proof.
  intros H. pose proof (uuid_str_length int) as Hlen.
  rewrite H in Hlen. discriminate.
Qed.

Lemma uuid_str_truthy (int : Z) : truthy (PStr (uuid.str int)) = true.
Proof.
  simpl. destruct (String.eqb (uuid.str int) "") eqn:E; [|done].
  apply String.eqb_eq in E. by apply uuid_str_nonempty in E.
Qed.

(** ** Reading a stored dictionary as an AgentConfig *)

Lemma dict_get_Some_key (d : dict) (k : string) (v : pyval) :
  dict_get d k = Some v → k ∈ d.*1.
Proof.
  induction d as [|[k0 v0] d IH]; simpl; [done|].
  destruct (String.eqb k0 k) eqn:E; intros H.
  - apply String.eqb_eq in E. subst. apply list_elem_of_here.
  - apply list_elem_of_further. by apply IH.
Qed.

Lemma id_or_fresh_truthy (v : pyval) (w : world) :
  truthy v = true → AgentConfig.id_or_fresh v w = (Return v, w).
Proof. intros H. unfold AgentConfig.id_or_fresh. by rewrite H. Qed.

Lemma id_or_fresh_falsy (v : pyval) (w : world) :
  truthy v = false → AgentConfig.id_or_fresh v w = (Return (next_id w), drawn w).
Proof. intros H. unfold AgentConfig.id_or_fresh. by rewrite H. Qed.

Lemma from_dict_known (d : dict) (w : world) :
  AgentConfig.known_keys d = true →
  ∃ c w', AgentConfig.from_dict (PDict d) w = (Return c, w') ∧ shows c d
    ∧ AgentConfig.id c
      = (if truthy (dict_get_default d "id" PNone)
         then dict_get_default d "id" PNone else next_id w)
    ∧ w' = (if truthy (dict_get_default d "id" PNone) then w else drawn w).
Proof.
  intros Hk. simpl. unfold AgentConfig.call_kwargs. rewrite Hk.
  unfold AgentConfig.__init__, bind.
  destruct (truthy (dict_get_default d "id" PNone)) eqn:Hid.
  - rewrite id_or_fresh_truthy by done. eexists _, _.
    split; [reflexivity|]. split; [|done].
    intros k v Hget Hidk.
    assert (k ∈ AgentConfig.fields) as Hin.
    { eapply (proj1 (known_keys_spec d) Hk), dict_get_Some_key, Hget. }
    unfold AgentConfig.fields in Hin.
    repeat (apply elem_of_cons in Hin as [->|Hin]);
      try (by apply elem_of_nil in Hin);
      simpl; unfold dict_get_default; by rewrite Hget.
  - rewrite id_or_fresh_falsy by done. eexists _, _.
    split; [reflexivity|]. split; [|done].
    intros k v Hget Hidk.
    assert (k ∈ AgentConfig.fields) as Hin.
    { eapply (proj1 (known_keys_spec d) Hk), dict_get_Some_key, Hget. }
    unfold AgentConfig.fields in Hin.
    apply elem_of_cons in Hin as [->|Hin].
    { specialize (Hidk eq_refl). unfold dict_get_default in Hid.
      rewrite Hget in Hid. congruence. }
    repeat (apply elem_of_cons in Hin as [->|Hin]);
      try (by apply elem_of_nil in Hin);
      simpl; unfold dict_get_default; by rewrite Hget.
Qed.

(** [from_dict] inverts [to_dict] on a configuration with a truthy id. *)
Lemma from_dict_to_dict (c : AgentConfig.t) (w : world) :
  truthy (AgentConfig.id c) = true →
  AgentConfig.from_dict (PDict (AgentConfig.to_dict c)) w = (Return c, w).
Proof.
  intros H. destruct c. simpl in *. unfold AgentConfig.call_kwargs.
  change (AgentConfig.known_keys _) with true. cbv iota.
  unfold AgentConfig.__init__, bind, dict_get_default. simpl.
  by rewrite id_or_fresh_truthy.
Qed.

(** ** Store states *)

Lemma holds_store (w : world) (recs : list dict) :
  agents_file w = store recs → holds w recs.
Proof.
  intros H. unfold holds, AgentService._load_agents. rewrite H. done.
Qed.

Lemma holds_written (w : world) (recs : list dict) :
  holds (written (store recs) w) recs.
Proof. by apply holds_store. Qed.

Lemma load_world (w : world) : (AgentService._load_agents w).2 = w.
Proof.
  unfold AgentService._load_agents.
  destruct (agents_file w) as [| |[]|]; done.
Qed.

Lemma save_written (agents : list dict) (w : world) :
  AgentService._save_agents (PList (PDict <$> agents)) w
  = (Return tt, written (store agents) w).
Proof. done. Qed.

Lemma first_with_id_inv (d0 : dict) (rest : list dict) (agent_id : string)
    (i : nat) (d : dict) :
  first_with_id (d0 :: rest) agent_id i d →
  (id_is d0 agent_id = true ∧ i = 0 ∧ d = d0)
  ∨ (id_is d0 agent_id = false ∧ ∃ j, i = S j ∧ first_with_id rest agent_id j d).
Proof.
  intros (Hi & Hd & Hbefore). destruct i as [|j].
  - left. simpl in Hi. injection Hi as <-. done.
  - right. split.
    + apply (Hbefore 0 d0); [lia|done].
    + exists j. split; [done|]. split; [done|]. split; [done|].
      intros k d' Hk Hd'. apply (Hbefore (S k) d'); [lia|done].
Qed.

Lemma no_id_cons (d0 : dict) (rest : list dict) (agent_id : string) :
  no_id (d0 :: rest) agent_id ↔ id_is d0 agent_id = false ∧ no_id rest agent_id.
Proof.
  unfold no_id. split.
  - intros H. split; [apply H, list_elem_of_here|].
    intros d Hd. by apply H, list_elem_of_further.
  - intros [H0 H] d Hd. apply elem_of_cons in Hd as [->|Hd]; auto.
Qed.

(** A record sequence has a first record with a given id or none at all. *)
Lemma first_or_none (recs : list dict) (agent_id : string) :
  (∃ i d, first_with_id recs agent_id i d) ∨ no_id recs agent_id.
Proof.
  induction recs as [|d0 rest IH].
  - right. intros d Hd. by apply elem_of_nil in Hd.
  - destruct (id_is d0 agent_id) eqn:E.
    + left. exists 0, d0. split; [done|]. split; [done|]. intros; lia.
    + destruct IH as [(i & d & Hi & Hd & Hb)|Hnone].
      * left. exists (S i), d. split; [done|]. split; [done|].
        intros [|j] d' Hj Hd'; simpl in Hd'.
        -- congruence.
        -- apply (Hb j d'); [lia|done].
      * right. by apply no_id_cons.
Qed.

(** ** What constructing a configuration leaves untouched *)

Lemma id_or_fresh_frame (v : pyval) (w : world) :
  ∃ v', AgentConfig.id_or_fresh v w = (Return v', if truthy v then w else drawn w).
Proof.
  unfold AgentConfig.id_or_fresh. destruct (truthy v); eexists; reflexivity.
Qed.

Lemma from_dict_frame (data : pyval) (w : world) :
  let w' := (AgentConfig.from_dict data w).2 in
  agents_file w' = agents_file w ∧ writes w' = writes w ∧ lk_calls w' = lk_calls w.
Proof.
  destruct data; simpl; try done.
  unfold AgentConfig.call_kwargs.
  destruct (AgentConfig.known_keys d); [|done].
  unfold AgentConfig.__init__, bind.
  destruct (id_or_fresh_frame (dict_get_default d "id" PNone) w) as [v' ->].
  simpl. by destruct (truthy _).
Qed.

(** ** The loops of the store *)

Section loops.
Variable agent_id : string.

Lemma get_agent_loop_found (rest : list dict) (i : nat) (d : dict) (w : world) :
  first_with_id rest agent_id i d →
  AgentService.get_agent_loop (PDict <$> rest) agent_id w
  = (c <- AgentConfig.from_dict (PDict d) ;; ret (Some c)) w.
Proof.
  revert i. induction rest as [|d0 rest IH]; intros i H.
  - by destruct H as [H _].
  - apply first_with_id_inv in H as [(E & _ & ->)|(E & j & _ & H)];
      cbn [fmap list_fmap AgentService.get_agent_loop]; rewrite E; [done|].
    by apply (IH j).
Qed.

Lemma get_agent_loop_none (rest : list dict) (w : world) :
  no_id rest agent_id →
  AgentService.get_agent_loop (PDict <$> rest) agent_id w = (Return None, w).
Proof.
  induction rest as [|d0 rest IH]; intros H; [done|].
  apply no_id_cons in H as [E H].
  cbn [fmap list_fmap AgentService.get_agent_loop]. rewrite E. by apply IH.
Qed.

Lemma update_agent_loop_found (kwargs : dict) (agents : list pyval)
    (rest : list dict) (i j : nat) (d : dict) (w : world) :
  first_with_id rest agent_id j d →
  AgentService.update_agent_loop agents i (PDict <$> rest) agent_id kwargs w
  = (_ <- AgentService._save_agents
            (PList (<[i + j := PDict (apply_kwargs d kwargs)]> agents)) ;;
     c <- AgentConfig.from_dict (PDict (apply_kwargs d kwargs)) ;;
     ret (Some c)) w.
Proof.
  revert i j. induction rest as [|d0 rest IH]; intros i j H.
  - by destruct H as [H _].
  - apply first_with_id_inv in H as [(E & -> & ->)|(E & j' & -> & H)];
      cbn [fmap list_fmap AgentService.update_agent_loop]; rewrite E.
    + by rewrite Nat.add_0_r.
    + rewrite (IH (S i) j' H). by rewrite Nat.add_succ_r.
Qed.

Lemma update_agent_loop_none (kwargs : dict) (agents : list pyval)
    (rest : list dict) (i : nat) (w : world) :
  no_id rest agent_id →
  AgentService.update_agent_loop agents i (PDict <$> rest) agent_id kwargs w
  = (Return None, w).
Proof.
  revert i. induction rest as [|d0 rest IH]; intros i H; [done|].
  apply no_id_cons in H as [E H].
  cbn [fmap list_fmap AgentService.update_agent_loop]. rewrite E. by apply IH.
Qed.

Lemma toggle_agent_loop_found (agents : list pyval)
    (rest : list dict) (i j : nat) (d : dict) (w : world) :
  first_with_id rest agent_id j d →
  AgentService.toggle_agent_loop agents i (PDict <$> rest) agent_id w
  = (_ <- AgentService._save_agents (PList (<[i + j := PDict (toggled d)]> agents)) ;;
     c <- AgentConfig.from_dict (PDict (toggled d)) ;;
     ret (Some c)) w.
Proof.
  revert i j. induction rest as [|d0 rest IH]; intros i j H.
  - by destruct H as [H _].
  - apply first_with_id_inv in H as [(E & -> & ->)|(E & j' & -> & H)];
      cbn [fmap list_fmap AgentService.toggle_agent_loop]; rewrite E.
    + by rewrite Nat.add_0_r.
    + rewrite (IH (S i) j' H). by rewrite Nat.add_succ_r.
Qed.

Lemma toggle_agent_loop_none (agents : list pyval)
    (rest : list dict) (i : nat) (w : world) :
  no_id rest agent_id →
  AgentService.toggle_agent_loop agents i (PDict <$> rest) agent_id w
  = (Return None, w).
Proof.
  revert i. induction rest as [|d0 rest IH]; intros i H; [done|].
  apply no_id_cons in H as [E H].
  cbn [fmap list_fmap AgentService.toggle_agent_loop]. rewrite E. by apply IH.
Qed.

Lemma keep_others_spec (recs : list dict) :
  AgentService.keep_others (PDict <$> recs) agent_id
  = Return (PDict <$> others agent_id recs).
Proof.
  induction recs as [|d0 rest IH]; [done|].
  cbn [fmap list_fmap AgentService.keep_others].
  change (list_fmap _ _ PDict rest) with (PDict <$> rest). rewrite IH.
  unfold others. rewrite filter_cons.
  destruct (id_is d0 agent_id) eqn:E.
  - by rewrite decide_False.
  - by rewrite decide_True.
Qed.

Lemma others_no_id (recs : list dict) : no_id (others agent_id recs) agent_id.
Proof. intros d Hd. by apply list_elem_of_filter in Hd as [H _]. Qed.

Lemma others_length (recs : list dict) : length (others agent_id recs) ≤ length recs.
Proof. apply length_filter. Qed.

Lemma others_all (recs : list dict) :
  no_id recs agent_id → others agent_id recs = recs.
Proof.
  induction recs as [|d0 rest IH]; intros H; [done|].
  apply no_id_cons in H as [E H]. unfold others. rewrite filter_cons.
  rewrite decide_True by done. f_equal. by apply IH.
Qed.

Lemma others_shorter (recs : list dict) (i : nat) (d : dict) :
  recs !! i = Some d → id_is d agent_id = true →
  length (others agent_id recs) < length recs.
Proof.
  revert i. induction recs as [|d0 rest IH]; intros i Hi Hd; [done|].
  unfold others. rewrite filter_cons. destruct i as [|i]; simpl in Hi.
  - injection Hi as ->. rewrite decide_False by (rewrite Hd; done).
    pose proof (others_length rest). unfold others in *. simpl. lia.
  - specialize (IH i Hi Hd). unfold others in IH.
    destruct (decide _); simpl; lia.
Qed.

End loops.

(** ** The operations on a store that holds a record sequence *)

Section operations.
Variables (w : world) (recs : list dict).
Hypothesis Hholds : holds w recs.

Lemma list_agents_holds :
  AgentService.list_agents w = for_each AgentConfig.from_dict (PDict <$> recs) w.
Proof. unfold AgentService.list_agents, bind. by rewrite Hholds. Qed.

Lemma get_agent_found (agent_id : string) (i : nat) (d : dict) :
  first_with_id recs agent_id i d →
  AgentService.get_agent agent_id w
  = (c <- AgentConfig.from_dict (PDict d) ;; ret (Some c)) w.
Proof.
  intros H. unfold AgentService.get_agent, bind at 1 2. rewrite Hholds.
  cbn [lift py_iter]. by apply (get_agent_loop_found _ _ i).
Qed.

Lemma get_agent_none (agent_id : string) :
  no_id recs agent_id → AgentService.get_agent agent_id w = (Return None, w).
Proof.
  intros H. unfold AgentService.get_agent, bind. rewrite Hholds.
  cbn [lift py_iter]. by apply get_agent_loop_none.
Qed.

Lemma create_agent_holds (config : AgentConfig.t) :
  AgentService.create_agent config w
  = (Return config, written (store (recs ++ [AgentConfig.to_dict config])) w).
Proof.
  unfold AgentService.create_agent, bind at 1. rewrite Hholds.
  unfold store. by rewrite fmap_app.
Qed.

Lemma update_agent_found (agent_id : string) (kwargs : dict) (i : nat) (d : dict) :
  first_with_id recs agent_id i d →
  AgentService.update_agent agent_id kwargs w
  = (c <- AgentConfig.from_dict (PDict (apply_kwargs d kwargs)) ;; ret (Some c))
      (written (store (<[i := apply_kwargs d kwargs]> recs)) w).
Proof.
  intros H. unfold AgentService.update_agent, bind at 1 2. rewrite Hholds.
  cbn [lift py_iter].
  rewrite (update_agent_loop_found _ _ _ _ 0 i d) by done.
  unfold bind at 1. simpl AgentService._save_agents.
  unfold store, written. by rewrite list_fmap_insert.
Qed.

Lemma update_agent_none (agent_id : string) (kwargs : dict) :
  no_id recs agent_id →
  AgentService.update_agent agent_id kwargs w = (Return None, w).
Proof.
  intros H. unfold AgentService.update_agent, bind. rewrite Hholds.
  cbn [lift py_iter]. by apply update_agent_loop_none.
Qed.

Lemma toggle_agent_found (agent_id : string) (i : nat) (d : dict) :
  first_with_id recs agent_id i d →
  AgentService.toggle_agent agent_id w
  = (c <- AgentConfig.from_dict (PDict (toggled d)) ;; ret (Some c))
      (written (store (<[i := toggled d]> recs)) w).
Proof.
  intros H. unfold AgentService.toggle_agent, bind at 1 2. rewrite Hholds.
  cbn [lift py_iter].
  rewrite (toggle_agent_loop_found _ _ _ 0 i d) by done.
  unfold bind at 1. simpl AgentService._save_agents.
  unfold store, written. by rewrite list_fmap_insert.
Qed.

Lemma toggle_agent_none (agent_id : string) :
  no_id recs agent_id → AgentService.toggle_agent agent_id w = (Return None, w).
Proof.
  intros H. unfold AgentService.toggle_agent, bind. rewrite Hholds.
  cbn [lift py_iter]. by apply toggle_agent_loop_none.
Qed.

Lemma delete_agent_holds (agent_id : string) :
  AgentService.delete_agent agent_id w
  = if Nat.ltb (length (others agent_id recs)) (length recs)
    then (Return true, written (store (others agent_id recs)) w)
    else (Return false, w).
Proof.
  unfold AgentService.delete_agent, bind. rewrite Hholds.
  cbn [lift py_len py_iter]. rewrite keep_others_spec.
  rewrite !length_fmap. by destruct (Nat.ltb _ _).
Qed.

End operations.

(** ** Positions and ids under the operations *)

Lemma first_with_id_insert (recs : list dict) (agent_id : string) (i : nat)
    (d d' : dict) :
  first_with_id recs agent_id i d → id_is d' agent_id = true →
  first_with_id (<[i := d']> recs) agent_id i d'.
Proof.
  intros (Hi & _ & Hbefore) Hd'. split.
  - apply list_lookup_insert_eq. by eapply lookup_lt_Some.
  - split; [done|]. intros j dj Hj Hdj.
    rewrite list_lookup_insert_ne in Hdj by lia. by apply (Hbefore j).
Qed.

Lemma first_with_id_app (recs : list dict) (agent_id : string) (d : dict) :
  no_id recs agent_id → id_is d agent_id = true →
  first_with_id (recs ++ [d]) agent_id (length recs) d.
Proof.
  intros Hnone Hd. split.
  - by rewrite lookup_app_r, Nat.sub_diag.
  - split; [done|]. intros j dj Hj Hdj.
    rewrite lookup_app_l in Hdj by done.
    apply Hnone. by eapply list_elem_of_lookup_2.
Qed.

Lemma id_toggled (d : dict) :
  dict_get_default (toggled d) "id" PNone = dict_get_default d "id" PNone.
Proof. unfold toggled. by apply dict_get_default_set_ne. Qed.

Lemma id_is_toggled (d : dict) (agent_id : string) :
  id_is (toggled d) agent_id = id_is d agent_id.
Proof. unfold id_is. by rewrite id_toggled. Qed.

Lemma id_is_to_dict (c : AgentConfig.t) (s : string) :
  AgentConfig.id c = PStr s → id_is (AgentConfig.to_dict c) s = true.
Proof.
  intros H. unfold id_is, dict_get_default. simpl. rewrite H. simpl.
  apply String.eqb_refl.
Qed.

Lemma bind_ret_world {A B} (m : M A) (f : A → B) (w : world) :
  ((a <- m ;; ret (f a)) w).2 = (m w).2.
Proof. unfold bind. by destruct (m w) as [[a|e] w']. Qed.

Lemma truthy_nonempty (s : string) : s ≠ "" → truthy (PStr s) = true.
Proof.
  intros H. simpl. destruct (String.eqb s "") eqn:E; [|done].
  by apply String.eqb_eq in E.
Qed.

Lemma maybe_drawn_frame (b : bool) (w : world) :
  let w' := if b then w else drawn w in
  agents_file w' = agents_file w ∧ writes w' = writes w ∧ lk_calls w' = lk_calls w.
Proof. by destruct b. Qed.

Lemma holds_same_file (w w' : world) (recs : list dict) :
  agents_file w' = agents_file w → holds w recs → holds w' recs.
Proof.
  unfold holds, AgentService._load_agents. intros ->.
  destruct (agents_file w) as [| |[]|]; intros H; try discriminate;
    injection H as H; by rewrite H.
Qed.

Lemma from_dict_truthy_id (d : dict) (c : AgentConfig.t) (w w' : world) :
  AgentConfig.from_dict (PDict d) w = (Return c, w') →
  truthy (AgentConfig.id c) = true.
Proof.
  intros H. destruct (AgentConfig.known_keys d) eqn:Hk.
  - destruct (from_dict_known d w Hk) as (c0 & w0 & Hfrom & _ & Hid & _).
    rewrite Hfrom in H. injection H as -> _. rewrite Hid.
    destruct (truthy (dict_get_default d "id" PNone)) eqn:E; [done|].
    apply uuid_str_truthy.
  - simpl in H. unfold AgentConfig.call_kwargs in H. rewrite Hk in H.
    discriminate.
Qed.

(** Reading a list of records with known keys gives one configuration per
    record, in order, each with a truthy id. *)
Lemma for_each_from_dict (recs : list dict) (w : world) :
  Forall (λ d, AgentConfig.known_keys d = true) recs →
  ∃ l w', for_each AgentConfig.from_dict (PDict <$> recs) w = (Return l, w')
    ∧ Forall2 shows l recs
    ∧ Forall (λ c, truthy (AgentConfig.id c) = true) l
    ∧ agents_file w' = agents_file w ∧ writes w' = writes w.
Proof.
  intros Hall. revert w. induction Hall as [|d rest Hd Hrest IH]; intros w.
  - exists [], w. by repeat split.
  - destruct (from_dict_known d w Hd) as (c & w1 & Hfrom & Hshows & _ & Hw1).
    destruct (IH w1) as (l & w' & Hl & Hsh & Hids & Hfile & Hwrites).
    exists (c :: l), w'.
    cbn [fmap list_fmap for_each]. unfold bind at 1. rewrite Hfrom.
    unfold bind at 1. change (list_fmap _ _ PDict rest) with (PDict <$> rest).
    rewrite Hl. split; [done|].
    split; [by constructor|].
    split; [constructor; [by eapply from_dict_truthy_id|done]|].
    rewrite Hfile, Hwrites, Hw1.
    split; apply maybe_drawn_frame.
Qed.

(** ** Ids under the operations *)

Lemma ids_app (recs : list dict) (d : dict) :
  ids (recs ++ [d]) = ids recs ++ [dict_get_default d "id" PNone].
Proof. unfold ids. by rewrite fmap_app. Qed.

Lemma ids_insert_same (recs : list dict) (i : nat) (d d' : dict) :
  recs !! i = Some d →
  dict_get_default d' "id" PNone = dict_get_default d "id" PNone →
  ids (<[i := d']> recs) = ids recs.
Proof.
  intros Hi Hid. unfold ids. rewrite list_fmap_insert.
  apply list_insert_id. by rewrite list_lookup_fmap, Hi, Hid.
Qed.

Lemma ids_others_sublist (agent_id : string) (recs : list dict) :
  ids (others agent_id recs) `sublist_of` ids recs.
Proof.
  unfold ids, others. induction recs as [|d rest IH]; [done|].
  rewrite filter_cons. destruct (decide _); csimpl.
  - by apply sublist_skip.
  - by apply sublist_cons.
Qed.

Lemma id_apply_kwargs (d kwargs : dict) :
  (∀ v, ("id", v) ∈ kwargs → v = PNone) →
  dict_get_default (apply_kwargs d kwargs) "id" PNone = dict_get_default d "id" PNone.
Proof.
  intros H. unfold dict_get_default. by rewrite apply_kwargs_untouched.
Qed.

(** One operation that keeps ids apart takes a store with pairwise distinct
    ids to a store with pairwise distinct ids. *)
Lemma perform_keeps_unique (w : world) (recs : list dict) (o : operation) :
  holds w recs → unique_ids recs → keeps_ids_apart recs o →
  ∃ recs', holds (perform o w) recs' ∧ unique_ids recs'.
Proof.
  intros Hholds Huniq Hkeeps. destruct o as [config|agent_id kwargs|agent_id|agent_id];
    simpl in *.
  - rewrite (create_agent_holds w recs Hholds).
    exists (recs ++ [AgentConfig.to_dict config]). split; [apply holds_written|].
    unfold unique_ids. rewrite ids_app. apply NoDup_app.
    split; [done|]. split; [|apply NoDup_singleton].
    intros x Hx Hx'. apply list_elem_of_singleton in Hx'. subst x.
    by apply Hkeeps.
  - destruct (first_or_none recs agent_id) as [(i & d & Hfirst)|Hnone].
    + rewrite (update_agent_found w recs Hholds agent_id kwargs i d Hfirst).
      rewrite (bind_ret_world _ Some).
      exists (<[i := apply_kwargs d kwargs]> recs). split.
      * apply holds_store.
        by destruct (from_dict_frame (PDict (apply_kwargs d kwargs))
                       (written (store (<[i := apply_kwargs d kwargs]> recs)) w))
          as (-> & _).
      * unfold unique_ids. rewrite (ids_insert_same recs i d); [done|by destruct Hfirst|].
        by apply id_apply_kwargs.
    + rewrite (update_agent_none w recs Hholds agent_id kwargs Hnone). by exists recs.
  - exists (others agent_id recs). split.
    + rewrite (delete_agent_holds w recs Hholds).
      destruct (first_or_none recs agent_id) as [(i & d & Hi & Hd & _)|Hnone].
      * pose proof (others_shorter agent_id recs i d Hi Hd) as Hlt.
        apply Nat.ltb_lt in Hlt. rewrite Hlt. apply holds_written.
      * rewrite (others_all agent_id recs Hnone). by rewrite Nat.ltb_irrefl.
    + eapply sublist_NoDup; [exact Huniq|apply ids_others_sublist].
  - destruct (first_or_none recs agent_id) as [(i & d & Hfirst)|Hnone].
    + rewrite (toggle_agent_found w recs Hholds agent_id i d Hfirst).
      rewrite (bind_ret_world _ Some).
      exists (<[i := toggled d]> recs). split.
      * apply holds_store.
        by destruct (from_dict_frame (PDict (toggled d))
                       (written (store (<[i := toggled d]> recs)) w))
          as (-> & _).
      * unfold unique_ids. rewrite (ids_insert_same recs i d); [done|by destruct Hfirst|].
        apply id_toggled.
    + rewrite (toggle_agent_none w recs Hholds agent_id Hnone). by exists recs.
Qed.

Lemma holds_inj (w : world) (recs recs' : list dict) :
  holds w recs → holds w recs' → recs = recs'.
Proof.
  unfold holds. intros H H'. rewrite H in H'. injection H' as H'. clear H.
  revert recs' H'. induction recs as [|d rest IH]; intros [|d' rest'] H';
    csimpl in H'; try discriminate; [done|].
  injection H' as -> H'. f_equal. by apply IH.
Qed.

(** ** What get_agent leaves untouched *)

Lemma get_agent_loop_frame (items : list pyval) (agent_id : string) (w : world) :
  let w' := (AgentService.get_agent_loop items agent_id w).2 in
  agents_file w' = agents_file w ∧ writes w' = writes w ∧ lk_calls w' = lk_calls w.
Proof.
  induction items as [|item rest IH]; [done|].
  destruct item; try done.
  cbn [AgentService.get_agent_loop]. destruct (id_is d agent_id); [|exact IH].
  rewrite (bind_ret_world _ Some). apply from_dict_frame.
Qed.

Lemma get_agent_frame (agent_id : string) (w : world) :
  let w' := (AgentService.get_agent agent_id w).2 in
  agents_file w' = agents_file w ∧ writes w' = writes w ∧ lk_calls w' = lk_calls w.
Proof.
  unfold AgentService.get_agent, bind.
  pose proof (load_world w) as Hw.
  destruct (AgentService._load_agents w) as [[agents|e] w0]; simpl in Hw; subst w0;
    [|by cbn].
  unfold lift. destruct (py_iter agents) as [items|e]; [|by cbn].
  apply get_agent_loop_frame.
Qed.

(** ** Records with a key that is no field *)

Lemma unknown_key_not_known (d : dict) (k : string) (v : pyval) :
  dict_get d k = Some v → k ∉ AgentConfig.fields → AgentConfig.known_keys d = false.
Proof.
  intros Hget Hk. destruct (AgentConfig.known_keys d) eqn:E; [|done].
  exfalso. apply Hk. eapply (proj1 (known_keys_spec d) E), dict_get_Some_key, Hget.
Qed.

Lemma from_dict_unknown (d : dict) (w : world) :
  AgentConfig.known_keys d = false →
  AgentConfig.from_dict (PDict d) w = (Raise TypeError, w).
Proof. intros H. simpl. unfold AgentConfig.call_kwargs. by rewrite H. Qed.

(** Reading a list of dictionaries either returns or raises TypeError, and
    it raises as soon as one of them has a key that is no field. *)
Lemma for_each_from_dict_unknown (recs : list dict) (w : world) :
  Exists (λ d, AgentConfig.known_keys d = false) recs →
  ∃ w', for_each AgentConfig.from_dict (PDict <$> recs) w = (Raise TypeError, w').
Proof.
  revert w. induction recs as [|d rest IH]; intros w H.
  - by apply Exists_nil in H.
  - cbn [fmap list_fmap for_each]. unfold bind at 1.
    destruct (AgentConfig.known_keys d) eqn:Ed.
    + destruct (from_dict_known d w Ed) as (c & w1 & -> & _).
      apply Exists_cons in H as [H|H]; [congruence|].
      destruct (IH w1 H) as (w' & Hrest).
      change (list_fmap _ _ PDict rest) with (PDict <$> rest).
      unfold bind. rewrite Hrest. by exists w'.
    + rewrite (from_dict_unknown d w Ed). by exists w.
Qed.

(** * The store operations *)

(** C1. update_agent on a store that holds [recs]: when [d] at index [i] is
    the first record with the id, the record is replaced by one that has
    every supplied value other than None under its key and the value of [d]
    under every other key (the id included); all other records stay as they
    are, the file is written once and the returned configuration shows the
    updated record. When no record has the id, the result is None and the
    world, hence the file, is untouched. *)
Theorem update_agent_overwrites_supplied_fields
    (w : world) (recs : list dict) (agent_id : string) (kwargs : dict) :
  holds w recs → NoDup kwargs.*1 → AgentConfig.known_keys kwargs = true →
  (∀ i d, first_with_id recs agent_id i d → AgentConfig.known_keys d = true →
     ∃ d' c w',
       AgentService.update_agent agent_id kwargs w = (Return (Some c), w')
       ∧ (∀ k v, (k, v) ∈ kwargs → v ≠ PNone → dict_get d' k = Some v)
       ∧ (∀ k, (∀ v, (k, v) ∈ kwargs → v = PNone) → dict_get d' k = dict_get d k)
       ∧ agents_file w' = store (<[i := d']> recs)
       ∧ writes w' = S (writes w)
       ∧ shows c d')
  ∧ (no_id recs agent_id →
     AgentService.update_agent agent_id kwargs w = (Return None, w)).
Proof.
  intros Hholds Hnd Hkw. split.
  - intros i d Hfirst Hd.
    rewrite (update_agent_found w recs Hholds agent_id kwargs i d Hfirst).
    set (d' := apply_kwargs d kwargs).
    set (w1 := written (store (<[i := d']> recs)) w).
    destruct (from_dict_known d' w1) as (c & w' & Hfrom & Hshows & _ & Hw').
    { by apply known_keys_apply_kwargs. }
    exists d', c, w'. unfold bind. rewrite Hfrom.
    split; [done|].
    split; [intros k v Hin Hv; by apply apply_kwargs_supplied|].
    split; [intros k Hk; by apply apply_kwargs_untouched|].
    rewrite Hw'. by destruct (truthy _).
  - intros Hnone. by apply (update_agent_none w recs).
Qed.

Lemma update_agent_overwrites_supplied_fields_witness :
  (∃ d' c w',
     AgentService.update_agent "b2" [("name", PStr "Robert"); ("voice", PNone)]
       sample_world = (Return (Some c), w')
     ∧ dict_get d' "name" = Some (PStr "Robert")
     ∧ agents_file w' = store [alice; d']
     ∧ writes w' = 1
     ∧ shows c d')
  ∧ AgentService.update_agent "zz" [("name", PStr "Robert"); ("voice", PNone)]
      sample_world = (Return None, sample_world).
Proof.
  split.
  - destruct (update_agent_overwrites_supplied_fields sample_world [alice; bob]
                "b2" [("name", PStr "Robert"); ("voice", PNone)]) as [H _].
    + by apply holds_store.
    + decided.
    + reflexivity.
    + destruct (H 1 bob) as (d' & c & w' & Hrun & Hset & _ & Hfile & Hwrites & Hshows).
      * first_here.
      * reflexivity.
      * exists d', c, w'. split; [exact Hrun|].
        split; [|by split].
        apply Hset; [apply list_elem_of_here|discriminate].
  - apply (update_agent_overwrites_supplied_fields sample_world [alice; bob]).
    + by apply holds_store.
    + decided.
    + reflexivity.
    + none_here.
Defined.

(** C3. delete_agent on a store that holds [recs]: when some record has the
    id, the result is True, the file holds the records without that id and
    get_agent of the id then finds nothing; when no record has the id, the
    result is False and the world is untouched: nothing is written and the
    file is what it was. *)
Theorem delete_agent_removes_or_leaves
    (w : world) (recs : list dict) (agent_id : string) :
  holds w recs →
  ((∃ i d, recs !! i = Some d ∧ id_is d agent_id = true) →
     ∃ w', AgentService.delete_agent agent_id w = (Return true, w')
       ∧ agents_file w' = store (others agent_id recs)
       ∧ no_id (others agent_id recs) agent_id
       ∧ AgentService.get_agent agent_id w' = (Return None, w'))
  ∧ (no_id recs agent_id →
     AgentService.delete_agent agent_id w = (Return false, w)
     ∧ agents_file (AgentService.delete_agent agent_id w).2 = agents_file w
     ∧ writes (AgentService.delete_agent agent_id w).2 = writes w).
Proof.
  intros Hholds. rewrite (delete_agent_holds w recs Hholds). split.
  - intros (i & d & Hi & Hd).
    pose proof (others_shorter agent_id recs i d Hi Hd) as Hlt.
    apply Nat.ltb_lt in Hlt. rewrite Hlt.
    eexists. split; [reflexivity|]. split; [done|].
    split; [apply others_no_id|].
    apply (get_agent_none _ (others agent_id recs)).
    + apply holds_written.
    + apply others_no_id.
  - intros Hnone. rewrite (others_all agent_id recs Hnone).
    by rewrite Nat.ltb_irrefl.
Qed.

Lemma delete_agent_removes_or_leaves_witness :
  (∃ w', AgentService.delete_agent "a1" sample_world = (Return true, w')
     ∧ agents_file w' = store [bob]
     ∧ AgentService.get_agent "a1" w' = (Return None, w'))
  ∧ AgentService.delete_agent "zz" sample_world = (Return false, sample_world).
Proof.
  split.
  - destruct (delete_agent_removes_or_leaves sample_world [alice; bob] "a1")
      as [H _]; [by apply holds_store|].
    destruct H as (w' & Hrun & Hfile & _ & Hget).
    + by exists 0, alice.
    + exists w'. split; [exact Hrun|]. split; [exact Hfile|exact Hget].
  - apply (delete_agent_removes_or_leaves sample_world [alice; bob] "zz").
    + by apply holds_store.
    + none_here.
Defined.

(** C9. delete_agent removes in one call every record that has the id, also
    when several records share it: the file then holds exactly the records
    of [recs] with another id, and the result is True as soon as one record
    had the id. *)
Theorem delete_agent_removes_every_match
    (w : world) (recs : list dict) (agent_id : string) :
  holds w recs → (∃ d, d ∈ recs ∧ id_is d agent_id = true) →
  ∃ w', AgentService.delete_agent agent_id w = (Return true, w')
    ∧ holds w' (others agent_id recs)
    ∧ (∀ d, d ∈ others agent_id recs ↔ d ∈ recs ∧ id_is d agent_id = false)
    ∧ others agent_id recs `sublist_of` recs.
Proof.
  intros Hholds (d & Hin & Hd).
  apply list_elem_of_lookup in Hin as [i Hi].
  rewrite (delete_agent_holds w recs Hholds).
  pose proof (others_shorter agent_id recs i d Hi Hd) as Hlt.
  apply Nat.ltb_lt in Hlt. rewrite Hlt.
  eexists. split; [reflexivity|]. split; [apply holds_written|]. split.
  - intros d'. unfold others. rewrite list_elem_of_filter. tauto.
  - apply sublist_filter.
Qed.

Lemma delete_agent_removes_every_match_witness :
  ∃ w', AgentService.delete_agent "a1" (world_with (store [alice; bob; alice]))
        = (Return true, w')
    ∧ holds w' [bob].
Proof.
  destruct (delete_agent_removes_every_match
              (world_with (store [alice; bob; alice])) [alice; bob; alice] "a1")
    as (w' & Hrun & Hholds & _).
  - by apply holds_store.
  - exists alice. split; [apply list_elem_of_here|reflexivity].
  - exists w'. split; [exact Hrun|exact Hholds].
Defined.

(** C5. create_agent on a store that holds [recs], for a configuration
    whose id is a non-empty string that no stored record has: the
    configuration is appended after the records of [recs], the file is
    written once, the configuration is returned as it is, and in every
    world with that file (the same process or one started later)
    get_agent of the id returns a configuration equal to it. *)
Theorem create_agent_then_get_agent
    (w : world) (recs : list dict) (config : AgentConfig.t) (s : string) :
  holds w recs → AgentConfig.id config = PStr s → s ≠ "" → no_id recs s →
  ∃ w', AgentService.create_agent config w = (Return config, w')
    ∧ agents_file w' = store (recs ++ [AgentConfig.to_dict config])
    ∧ writes w' = S (writes w)
    ∧ ∀ w'', agents_file w'' = agents_file w' →
        AgentService.get_agent s w'' = (Return (Some config), w'').
Proof.
  intros Hholds Hid Hs Hnone.
  rewrite (create_agent_holds w recs Hholds).
  eexists. split; [reflexivity|]. split; [done|]. split; [done|].
  intros w'' Hfile. simpl in Hfile.
  rewrite (get_agent_found w'' (recs ++ [AgentConfig.to_dict config]) (holds_store _ _ Hfile)
             s (length recs) (AgentConfig.to_dict config)).
  - unfold bind. rewrite from_dict_to_dict; [done|].
    rewrite Hid. by apply truthy_nonempty.
  - apply first_with_id_app; [done|]. by apply id_is_to_dict.
Qed.

Lemma create_agent_then_get_agent_witness :
  ∃ w', AgentService.create_agent carol sample_world = (Return carol, w')
    ∧ agents_file w' = store [alice; bob; AgentConfig.to_dict carol]
    ∧ AgentService.get_agent "c3" (world_with (agents_file w'))
      = (Return (Some carol), world_with (agents_file w')).
Proof.
  destruct (create_agent_then_get_agent sample_world [alice; bob] carol "c3")
    as (w' & Hrun & Hfile & _ & Hget).
  - by apply holds_store.
  - reflexivity.
  - discriminate.
  - none_here.
  - exists w'. split; [exact Hrun|]. split; [exact Hfile|].
    by apply Hget.
Defined.

(** C4. toggle_agent on a store that holds [recs], for the first record [d]
    with the id, whose enabled flag is the boolean [b] (the default True
    when the record has none): one call stores the negation of [b] under
    "enabled" and changes no other key of the record and no other record;
    a second call stores [b] again, which gives back the sequence [recs]
    when the flag was stored. The configurations returned show the flag of
    the moment. *)
Theorem toggle_agent_flips_enabled
    (w : world) (recs : list dict) (agent_id : string) (i : nat) (d : dict)
    (b : bool) :
  holds w recs → first_with_id recs agent_id i d →
  AgentConfig.known_keys d = true →
  dict_get_default d "enabled" (PBool true) = PBool b →
  ∃ c1 w1 c2 w2,
    AgentService.toggle_agent agent_id w = (Return (Some c1), w1)
    ∧ agents_file w1 = store (<[i := toggled d]> recs)
    ∧ dict_get (toggled d) "enabled" = Some (PBool (negb b))
    ∧ (∀ k, k ≠ "enabled" → dict_get (toggled d) k = dict_get d k)
    ∧ AgentConfig.enabled c1 = PBool (negb b)
    ∧ AgentService.toggle_agent agent_id w1 = (Return (Some c2), w2)
    ∧ agents_file w2 = store (<[i := dict_set d "enabled" (PBool b)]> recs)
    ∧ AgentConfig.enabled c2 = PBool b
    ∧ (dict_get d "enabled" = Some (PBool b) → agents_file w2 = store recs).
Proof.
  intros Hholds Hfirst Hkeys Henabled.
  assert ("enabled" ∈ AgentConfig.fields) as Hfield
    by (apply list_elem_of_In; simpl; tauto).
  assert (toggled d = dict_set d "enabled" (PBool (negb b))) as Htog.
  { unfold toggled. by rewrite Henabled. }
  assert (toggled (toggled d) = dict_set d "enabled" (PBool b)) as Htog2.
  { unfold toggled at 1. rewrite Htog, dict_get_default_set_eq, dict_set_set.
    simpl. by rewrite negb_involutive. }
  (* first call *)
  rewrite (toggle_agent_found w recs Hholds agent_id i d Hfirst).
  set (w0 := written (store (<[i := toggled d]> recs)) w).
  destruct (from_dict_known (toggled d) w0) as (c1 & w1 & Hfrom1 & Hshows1 & _ & Hw1).
  { by apply known_keys_set. }
  assert (agents_file w1 = store (<[i := toggled d]> recs)) as Hfile1.
  { rewrite Hw1. apply maybe_drawn_frame. }
  (* second call *)
  pose proof (first_with_id_insert recs agent_id i d (toggled d) Hfirst) as Hfirst1.
  rewrite id_is_toggled in Hfirst1.
  specialize (Hfirst1 (proj1 (proj2 Hfirst))).
  pose proof (toggle_agent_found w1 _ (holds_store _ _ Hfile1) agent_id i _ Hfirst1)
    as Hrun2.
  rewrite Htog2, list_insert_insert_eq in Hrun2.
  set (w1' := written (store (<[i := dict_set d "enabled" (PBool b)]> recs)) w1) in Hrun2.
  destruct (from_dict_known (dict_set d "enabled" (PBool b)) w1')
    as (c2 & w2 & Hfrom2 & Hshows2 & _ & Hw2).
  { by apply known_keys_set. }
  assert (agents_file w2 = store (<[i := dict_set d "enabled" (PBool b)]> recs))
    as Hfile2.
  { rewrite Hw2. apply maybe_drawn_frame. }
  exists c1, w1, c2, w2.
  split; [unfold bind; by rewrite Hfrom1|].
  split; [done|].
  split; [rewrite Htog; apply dict_get_set_eq|].
  split; [intros k Hk; rewrite Htog; by apply dict_get_set_ne|].
  split.
  { specialize (Hshows1 "enabled" (PBool (negb b))).
    rewrite Htog, dict_get_set_eq in Hshows1.
    specialize (Hshows1 eq_refl). simpl in Hshows1.
    assert (Some (AgentConfig.enabled c1) = Some (PBool (negb b))) as Heq
      by (apply Hshows1; discriminate).
    by injection Heq. }
  split; [rewrite Hrun2; unfold bind; by rewrite Hfrom2|].
  split; [done|].
  split.
  { specialize (Hshows2 "enabled" (PBool b)).
    rewrite dict_get_set_eq in Hshows2.
    specialize (Hshows2 eq_refl). simpl in Hshows2.
    assert (Some (AgentConfig.enabled c2) = Some (PBool b)) as Heq
      by (apply Hshows2; discriminate).
    by injection Heq. }
  intros Hstored. rewrite Hfile2, (dict_set_same d _ _ Hstored).
  rewrite list_insert_id; [done|]. by destruct Hfirst.
Qed.

Lemma toggle_agent_flips_enabled_witness :
  ∃ c1 w1 c2 w2,
    AgentService.toggle_agent "b2" sample_world = (Return (Some c1), w1)
    ∧ AgentConfig.enabled c1 = PBool true
    ∧ AgentService.toggle_agent "b2" w1 = (Return (Some c2), w2)
    ∧ AgentConfig.enabled c2 = PBool false
    ∧ agents_file w2 = store [alice; bob].
Proof.
  destruct (toggle_agent_flips_enabled sample_world [alice; bob] "b2" 1 bob false)
    as (c1 & w1 & c2 & w2 & H1 & _ & _ & _ & He1 & H2 & _ & He2 & Hback).
  - by apply holds_store.
  - first_here.
  - reflexivity.
  - reflexivity.
  - exists c1, w1, c2, w2.
    split; [exact H1|]. split; [exact He1|]. split; [exact H2|].
    split; [exact He2|]. by apply Hback.
Defined.

(** C7. The record sequence keeps its order. On a store that holds [recs]:
    create_agent leaves the file with [recs] followed by the new record;
    update_agent and toggle_agent leave it with the changed record at the
    index where the first match was, every other index as before, or leave
    the world alone when nothing matches; delete_agent leaves it with the
    records of another id in the order they had; and what _save_agents
    writes is what _load_agents reads back. *)
Theorem record_order_preserved (w : world) (recs : list dict) :
  holds w recs →
  (∀ config,
     agents_file (perform (Create config) w)
     = store (recs ++ [AgentConfig.to_dict config]))
  ∧ (∀ agent_id kwargs i d, first_with_id recs agent_id i d →
       agents_file (perform (Update agent_id kwargs) w)
       = store (<[i := apply_kwargs d kwargs]> recs))
  ∧ (∀ agent_id i d, first_with_id recs agent_id i d →
       agents_file (perform (Toggle agent_id) w) = store (<[i := toggled d]> recs))
  ∧ (∀ agent_id kwargs, no_id recs agent_id →
       perform (Update agent_id kwargs) w = w ∧ perform (Toggle agent_id) w = w)
  ∧ (∀ agent_id,
       holds (perform (Delete agent_id) w) (others agent_id recs)
       ∧ others agent_id recs `sublist_of` recs)
  ∧ (∀ agents w0,
       AgentService._load_agents (AgentService._save_agents (PList agents) w0).2
       = (Return (PList agents), (AgentService._save_agents (PList agents) w0).2)).
Proof.
  intros Hholds. repeat split.
  - intros config. simpl. by rewrite (create_agent_holds w recs Hholds).
  - intros agent_id kwargs i d Hfirst. simpl.
    rewrite (update_agent_found w recs Hholds agent_id kwargs i d Hfirst).
    rewrite (bind_ret_world _ Some).
    by destruct (from_dict_frame (PDict (apply_kwargs d kwargs))
                   (written (store (<[i := apply_kwargs d kwargs]> recs)) w))
      as (-> & _).
  - intros agent_id i d Hfirst. simpl.
    rewrite (toggle_agent_found w recs Hholds agent_id i d Hfirst).
    rewrite (bind_ret_world _ Some).
    by destruct (from_dict_frame (PDict (toggled d))
                   (written (store (<[i := toggled d]> recs)) w))
      as (-> & _).
  - simpl. by rewrite (update_agent_none w recs Hholds).
  - simpl. by rewrite (toggle_agent_none w recs Hholds).
  - simpl. rewrite (delete_agent_holds w recs Hholds).
    destruct (first_or_none recs agent_id) as [(i & d & Hi & Hd & _)|Hnone].
    + pose proof (others_shorter agent_id recs i d Hi Hd) as Hlt.
      apply Nat.ltb_lt in Hlt. rewrite Hlt. apply holds_written.
    + rewrite (others_all agent_id recs Hnone). by rewrite Nat.ltb_irrefl.
  - apply sublist_filter.
Qed.

Lemma record_order_preserved_witness :
  agents_file (perform (Create carol) sample_world)
  = store [alice; bob; AgentConfig.to_dict carol]
  ∧ agents_file (perform (Update "a1" [("name", PStr "Al")]) sample_world)
    = store [dict_set alice "name" (PStr "Al"); bob]
  ∧ agents_file (perform (Toggle "a1") sample_world) = store [toggled alice; bob]
  ∧ holds (perform (Delete "a1") sample_world) [bob].
Proof.
  destruct (record_order_preserved sample_world [alice; bob])
    as (Hcreate & Hupdate & Htoggle & _ & Hdelete & _).
  - by apply holds_store.
  - split; [apply Hcreate|].
    split; [apply (Hupdate "a1" [("name", PStr "Al")] 0 alice); first_here|].
    split; [apply (Htoggle "a1" 0 alice); first_here|].
    apply (Hdelete "a1").
Defined.

(** C10. An AgentConfig built with an id that is None or the empty string,
    or read by from_dict from a dictionary whose id is missing, None or the
    empty string, gets the identifier of the next draw of entropy, which is
    a non-empty string, and the draw is consumed. So a stored record whose
    id is the empty string, looked up with get_agent, comes back with a
    generated id instead of the stored one, a second look-up generates the
    id of the following draw, and no configuration returned by list_agents
    has an empty id. *)
Theorem falsy_id_replaced_by_generated_id :
  (∀ id_arg name enabled model_provider model voice first_message
     noise_cancellation n8n_mcp_url metadata w,
     id_arg = PNone ∨ id_arg = PStr "" →
     AgentConfig.__init__ id_arg name enabled model_provider model voice
       first_message noise_cancellation n8n_mcp_url metadata w
     = (Return (AgentConfig.mk (next_id w) name enabled model_provider model
                  voice first_message noise_cancellation n8n_mcp_url metadata),
        drawn w))
  ∧ (∀ d w, AgentConfig.known_keys d = true →
       dict_get d "id" = None ∨ dict_get d "id" = Some PNone
       ∨ dict_get d "id" = Some (PStr "") →
       ∃ c, AgentConfig.from_dict (PDict d) w = (Return c, drawn w)
         ∧ AgentConfig.id c = next_id w)
  ∧ (∀ w, ∃ s, next_id w = PStr s ∧ String.length s = 36 ∧ s ≠ "")
  ∧ (∀ w recs i d, holds w recs → first_with_id recs "" i d →
       AgentConfig.known_keys d = true →
       ∃ c1 c2,
         AgentService.get_agent "" w = (Return (Some c1), drawn w)
         ∧ AgentConfig.id c1 = next_id w
         ∧ AgentConfig.id c1 ≠ PStr ""
         ∧ AgentService.get_agent "" (drawn w) = (Return (Some c2), drawn (drawn w))
         ∧ AgentConfig.id c2 = next_id (drawn w))
  ∧ (∀ w recs, holds w recs → Forall (λ d, AgentConfig.known_keys d = true) recs →
       ∃ l w', AgentService.list_agents w = (Return l, w')
         ∧ Forall (λ c, AgentConfig.id c ≠ PStr "") l).
Proof.
  assert (∀ d w, AgentConfig.known_keys d = true →
            truthy (dict_get_default d "id" PNone) = false →
            ∃ c, AgentConfig.from_dict (PDict d) w = (Return c, drawn w)
              ∧ AgentConfig.id c = next_id w) as Hfalsy.
  { intros d w Hk Hid.
    destruct (from_dict_known d w Hk) as (c & w' & Hfrom & _ & Hc & Hw').
    rewrite Hid in Hc, Hw'. subst w'. by exists c. }
  assert (∀ w, next_id w ≠ PStr "") as Hnext.
  { intros w H. injection H as H. by apply uuid_str_nonempty in H. }
  split; [|split; [|split; [|split]]].
  - intros id_arg name enabled model_provider model voice first_message
      noise_cancellation n8n_mcp_url metadata w Hid.
    unfold AgentConfig.__init__, bind.
    rewrite id_or_fresh_falsy; [done|]. by destruct Hid as [->| ->].
  - intros d w Hk Hid. apply Hfalsy; [done|].
    unfold dict_get_default. by destruct Hid as [->|[->| ->]].
  - intros w. eexists. split; [reflexivity|].
    split; [apply uuid_str_length|apply uuid_str_nonempty].
  - intros w recs i d Hholds Hfirst Hk.
    assert (truthy (dict_get_default d "id" PNone) = false) as Hid.
    { destruct Hfirst as (_ & Hd & _). unfold id_is, eq_str in Hd.
      destruct (dict_get_default d "id" PNone); try discriminate.
      apply String.eqb_eq in Hd. by subst. }
    destruct (Hfalsy d w Hk Hid) as (c1 & Hfrom1 & Hc1).
    destruct (Hfalsy d (drawn w) Hk Hid) as (c2 & Hfrom2 & Hc2).
    exists c1, c2.
    rewrite (get_agent_found w recs Hholds "" i d Hfirst).
    rewrite (get_agent_found (drawn w) recs (holds_same_file w (drawn w) recs eq_refl Hholds)
               "" i d Hfirst).
    unfold bind. rewrite Hfrom1, Hfrom2.
    split; [done|]. split; [done|]. split; [by rewrite Hc1|]. done.
  - intros w recs Hholds Hall.
    rewrite (list_agents_holds w recs Hholds).
    destruct (for_each_from_dict recs w Hall) as (l & w' & Hl & _ & Hids & _).
    exists l, w'. split; [done|].
    eapply Forall_impl; [exact Hids|].
    intros c Hc Hempty. simpl in Hc. by rewrite Hempty in Hc.
Qed.

Lemma falsy_id_replaced_by_generated_id_witness :
  ∃ c1 c2,
    AgentService.get_agent "" (world_with (store [alice; anonymous]))
    = (Return (Some c1), drawn (world_with (store [alice; anonymous])))
    ∧ AgentConfig.id c1 = PStr "00000000-0000-4000-8000-000000000000"
    ∧ AgentService.get_agent "" (drawn (world_with (store [alice; anonymous])))
      = (Return (Some c2), drawn (drawn (world_with (store [alice; anonymous]))))
    ∧ AgentConfig.id c2 = PStr "00000000-0000-4000-8000-000000000001".
Proof.
  destruct falsy_id_replaced_by_generated_id as (_ & _ & _ & Hget & _).
  destruct (Hget (world_with (store [alice; anonymous])) [alice; anonymous]
              1 anonymous) as (c1 & c2 & H1 & Hc1 & _ & H2 & Hc2).
  - by apply holds_store.
  - first_here.
  - reflexivity.
  - exists c1, c2. split; [exact H1|]. split; [by rewrite Hc1|].
    split; [exact H2|]. by rewrite Hc2.
Defined.

(** C2, as stated, fails: a file that holds valid JSON which is not an
    object, here the array [[]], makes list_agents raise AttributeError
    ([data.get] on a list), which [_load_agents] does not catch. *)
Lemma list_agents_raises_on_json_array :
  AgentService.list_agents (world_with (Json (PList [])))
  = (Raise AttributeError, world_with (Json (PList [])))
  ∧ ¬ ∃ l w', AgentService.list_agents (world_with (Json (PList []))) = (Return l, w').
Proof.
  split; [reflexivity|]. intros (l & w' & H). discriminate H.
Qed.

(** C2, amended. list_agents returns the empty list, and leaves the world
    alone, when the agents file is missing or when the JSON parser finds a
    syntax error in it (JSONDecodeError); when the file holds a sequence of
    records whose keys are all fields of AgentConfig, it returns one
    configuration per record, in order, each showing its record. It does
    not return on every file: on a JSON document that is no object it
    raises AttributeError, on a sequence with a record that has a key which
    is no field it raises TypeError, and any other exception of reading the
    file (bytes that are no UTF-8, nesting too deep for the parser, an
    integer with too many digits) is not caught and leaves list_agents as
    it is. *)
Theorem list_agents_lenient_read (w : world) :
  (agents_file w = Missing ∨ (∃ text, agents_file w = Malformed text) →
   AgentService.list_agents w = (Return [], w))
  ∧ (∀ recs, holds w recs → Forall (λ d, AgentConfig.known_keys d = true) recs →
       ∃ l w', AgentService.list_agents w = (Return l, w')
         ∧ Forall2 shows l recs
         ∧ agents_file w' = agents_file w ∧ writes w' = writes w)
  ∧ (∀ doc, agents_file w = Json doc → (∀ data, doc ≠ PDict data) →
       AgentService.list_agents w = (Raise AttributeError, w))
  ∧ (∀ recs, holds w recs → Exists (λ d, AgentConfig.known_keys d = false) recs →
       ∃ w', AgentService.list_agents w = (Raise TypeError, w'))
  ∧ (∀ e, agents_file w = Unreadable e →
       AgentService.list_agents w = (Raise e, w)).
Proof.
  split; [|split; [|split; [|split]]].
  - intros H. unfold AgentService.list_agents, bind, AgentService._load_agents.
    by destruct H as [->|[text ->]].
  - intros recs Hholds Hall. rewrite (list_agents_holds w recs Hholds).
    destruct (for_each_from_dict recs w Hall) as (l & w' & Hl & Hshows & _ & Hframe).
    by exists l, w'.
  - intros doc Hdoc Hnot.
    unfold AgentService.list_agents, bind, AgentService._load_agents.
    rewrite Hdoc. destruct doc; try done. by specialize (Hnot d).
  - intros recs Hholds Hsome. rewrite (list_agents_holds w recs Hholds).
    by apply for_each_from_dict_unknown.
  - intros e He.
    unfold AgentService.list_agents, bind, AgentService._load_agents.
    by rewrite He.
Qed.

Lemma list_agents_lenient_read_witness :
  AgentService.list_agents (world_with Missing) = (Return [], world_with Missing)
  ∧ AgentService.list_agents (world_with (Malformed "{ agents: "))
    = (Return [], world_with (Malformed "{ agents: "))
  ∧ (∃ l w', AgentService.list_agents sample_world = (Return l, w')
       ∧ Forall2 shows l [alice; bob])
  ∧ AgentService.list_agents (world_with (Json (PInt 5)))
    = (Raise AttributeError, world_with (Json (PInt 5)))
  ∧ (∃ w', AgentService.list_agents
             (world_with (store [alice; [("id", PStr "x"); ("nickname", PStr "Al")]]))
           = (Raise TypeError, w'))
  ∧ AgentService.list_agents (world_with (Unreadable UnicodeDecodeError))
    = (Raise UnicodeDecodeError, world_with (Unreadable UnicodeDecodeError)).
Proof.
  split; [|split; [|split; [|split; [|split]]]].
  - apply (list_agents_lenient_read (world_with Missing)). by left.
  - apply (list_agents_lenient_read (world_with (Malformed "{ agents: "))).
    right. by eexists.
  - destruct (list_agents_lenient_read sample_world) as (_ & H & _).
    destruct (H [alice; bob]) as (l & w' & Hrun & Hshows & _).
    + by apply holds_store.
    + by repeat constructor.
    + by exists l, w'.
  - destruct (list_agents_lenient_read (world_with (Json (PInt 5))))
      as (_ & _ & H & _).
    by apply (H (PInt 5)).
  - destruct (list_agents_lenient_read
                (world_with (store [alice; [("id", PStr "x"); ("nickname", PStr "Al")]])))
      as (_ & _ & _ & H & _).
    apply (H [alice; [("id", PStr "x"); ("nickname", PStr "Al")]]).
    + by apply holds_store.
    + apply Exists_cons_tl, Exists_cons_hd. reflexivity.
  - destruct (list_agents_lenient_read (world_with (Unreadable UnicodeDecodeError)))
      as (_ & _ & _ & _ & H).
    by apply H.
Defined.

(** C6, as stated, fails: create_agent appends whatever configuration it is
    given, so creating a configuration with the id of a stored record
    leaves two records with one id. *)
Lemma create_agent_duplicates_id :
  holds sample_world [alice; bob] ∧ unique_ids [alice; bob]
  ∧ holds (perform_all [Create twin] sample_world)
      [alice; bob; AgentConfig.to_dict twin]
  ∧ ¬ ∃ recs', holds (perform_all [Create twin] sample_world) recs'
        ∧ unique_ids recs'.
Proof.
  assert (holds (perform_all [Create twin] sample_world)
            [alice; bob; AgentConfig.to_dict twin]) as Hafter
    by (by apply holds_store).
  split; [by apply holds_store|]. split; [|split; [exact Hafter|]].
  - unfold unique_ids. simpl. apply NoDup_cons. split; [|apply NoDup_singleton].
    intros H. apply list_elem_of_singleton in H. discriminate.
  - intros (recs' & Hholds & Huniq).
    rewrite <- (holds_inj _ _ _ Hafter Hholds) in Huniq.
    unfold unique_ids in Huniq. simpl in Huniq.
    apply NoDup_cons in Huniq as [Hnotin _]. apply Hnotin.
    apply list_elem_of_further. apply list_elem_of_here.
Qed.

(** C6, amended. Starting from a store with pairwise distinct ids, after
    any sequence of create, update, delete and toggle operations in which
    every create brings an id that no stored record has at that moment and
    no update assigns the id, the stored ids are pairwise distinct. The
    store itself never compares ids on create or update. *)
Theorem unique_ids_preserved (ops : list operation) (w : world) (recs : list dict) :
  holds w recs → unique_ids recs → all_keep_ids_apart ops w →
  ∃ recs', holds (perform_all ops w) recs' ∧ unique_ids recs'.
Proof.
  revert w recs. induction ops as [|o rest IH]; intros w recs Hholds Huniq Hops.
  - by exists recs.
  - destruct Hops as [Ho Hrest].
    destruct (perform_keeps_unique w recs o Hholds Huniq (Ho recs Hholds))
      as (recs1 & Hholds1 & Huniq1).
    by apply (IH (perform o w) recs1).
Qed.

Lemma unique_ids_preserved_witness :
  ∃ recs',
    holds (perform_all [Create carol; Toggle "a1"; Update "b2" [("name", PStr "Bo")];
                        Delete "a1"] sample_world) recs'
    ∧ unique_ids recs'.
Proof.
  apply (unique_ids_preserved _ sample_world [alice; bob]).
  - by apply holds_store.
  - unfold unique_ids. simpl. apply NoDup_cons. split; [|apply NoDup_singleton].
    intros H. apply list_elem_of_singleton in H. discriminate.
  - split; [|split; [|split; [|split]]]; try done.
    + intros recs Hholds.
      rewrite <- (holds_inj sample_world [alice; bob] recs); [|by apply holds_store|done].
      simpl. intros H.
      repeat (apply elem_of_cons in H as [H|H]; [discriminate|]).
      by apply elem_of_nil in H.
    + intros recs _ v Hv.
      apply list_elem_of_singleton in Hv. discriminate.
Defined.

(** * The test route *)

(** C8. For a request that passes the admin guard and the CSRF check: when
    get_agent finds no record for the id, test_agent answers with the
    redirect that carries the error flash "Agent not found"; when the
    record found has a false enabled flag, it answers with the redirect
    whose error flash says the agent is disabled. In both cases the list of
    calls made on the LiveKit client is what it was: no room is created and
    no token is generated. *)
Theorem test_agent_guards
    (deps : collaborators) (agent_id csrf_token : string) (w : world) :
  is_admin deps = true → csrf_matches deps csrf_token = true →
  (∀ w', AgentService.get_agent agent_id w = (Return None, w') →
     test_agent deps agent_id csrf_token w
     = (Return (RedirectResponse
                  "/agents?flash_message=Agent%20not%20found&flash_type=error" 303),
        w')
     ∧ lk_calls w' = lk_calls w)
  ∧ (∀ agent w', AgentService.get_agent agent_id w = (Return (Some agent), w') →
       truthy (AgentConfig.enabled agent) = false →
       ∃ url,
         test_agent deps agent_id csrf_token w = (Return (RedirectResponse url 303), w')
         ∧ url = "/agents?flash_message=Agent%20is%20disabled.%20Enable%20it%20first%20to%20test.&flash_type=error"
         ∧ contains "disabled" url = true
         ∧ contains "flash_type=error" url = true
         ∧ lk_calls w' = lk_calls w).
Proof.
  intros Hadmin Hcsrf.
  pose proof (get_agent_frame agent_id w) as (_ & _ & Hcalls).
  split.
  - intros w' Hget. rewrite Hget in Hcalls. split; [|done].
    unfold test_agent, bind, requires_admin, verify_csrf_token.
    rewrite Hadmin, Hcsrf. unfold ret at 1 2. by rewrite Hget.
  - intros agent w' Hget Hdisabled. rewrite Hget in Hcalls.
    eexists. split; [|split; [reflexivity|]].
    + unfold test_agent, bind, requires_admin, verify_csrf_token.
      rewrite Hadmin, Hcsrf. unfold ret at 1 2. rewrite Hget, Hdisabled.
      reflexivity.
    + by repeat split.
Qed.

Lemma test_agent_guards_witness :
  (∃ w', test_agent sample_deps "zz" "tok" sample_world
         = (Return (RedirectResponse
                      "/agents?flash_message=Agent%20not%20found&flash_type=error" 303),
            w')
     ∧ lk_calls w' = [])
  ∧ (∃ url w', test_agent sample_deps "b2" "tok" sample_world
               = (Return (RedirectResponse url 303), w')
       ∧ contains "disabled" url = true
       ∧ lk_calls w' = []).
Proof.
  split.
  - destruct (test_agent_guards sample_deps "zz" "tok" sample_world) as [H _];
      [reflexivity|reflexivity|].
    destruct (H sample_world) as [Hrun Hcalls]; [reflexivity|].
    exists sample_world. by split.
  - destruct (test_agent_guards sample_deps "b2" "tok" sample_world) as [_ H];
      [reflexivity|reflexivity|].
    edestruct H as (url & Hrun & _ & Hcontains & _ & Hcalls);
      [reflexivity|reflexivity|].
    exists url, sample_world. by repeat split.
Defined.

(** * Further properties of the store *)

Lemma for_each_from_dict_frame (items : list pyval) (w : world) :
  same_store_and_calls w (for_each AgentConfig.from_dict items w).2.
Proof.
  revert w. induction items as [|item rest IH]; intros w; [done|].
  cbn [for_each]. unfold bind.
  pose proof (from_dict_frame item w) as Hitem.
  destruct (AgentConfig.from_dict item w) as [[c|e] w1]; simpl in Hitem; [|done].
  specialize (IH w1). destruct Hitem as (Hf & Hw & Hc).
  destruct (for_each AgentConfig.from_dict rest w1) as [[cs|e] w2];
    destruct IH as (Hf' & Hw' & Hc'); cbn in *;
    repeat split; congruence.
Qed.

Lemma list_agents_frame (w : world) :
  same_store_and_calls w (AgentService.list_agents w).2.
Proof.
  unfold AgentService.list_agents, bind.
  pose proof (load_world w) as Hw.
  destruct (AgentService._load_agents w) as [[agents|e] w0]; simpl in Hw; subst w0;
    [|by cbn].
  unfold lift. destruct (py_iter agents) as [items|e]; [|by cbn].
  apply for_each_from_dict_frame.
Qed.

(** X1. _ensure_data_dir writes the empty store when the file is missing and
    only then: a file that exists, readable or not, is left as it is; a
    second call changes nothing; and after it a missing file reads as the
    empty list. *)
Theorem ensure_data_dir_only_fills_a_gap (w : world) :
  (agents_file w = Missing →
   AgentService._ensure_data_dir w = (Return tt, written (store []) w)
   ∧ AgentService.list_agents (AgentService._ensure_data_dir w).2
     = (Return [], (AgentService._ensure_data_dir w).2))
  ∧ (agents_file w ≠ Missing → AgentService._ensure_data_dir w = (Return tt, w))
  ∧ AgentService._ensure_data_dir (AgentService._ensure_data_dir w).2
    = (Return tt, (AgentService._ensure_data_dir w).2).
Proof.
  unfold AgentService._ensure_data_dir. split; [|split].
  - intros H. rewrite H. by split.
  - intros H. by destruct (agents_file w).
  - by destruct (agents_file w) eqn:E; simpl; try rewrite E.
Qed.

Lemma ensure_data_dir_only_fills_a_gap_witness :
  AgentService._ensure_data_dir (world_with Missing)
  = (Return tt, written (store []) (world_with Missing))
  ∧ AgentService._ensure_data_dir (world_with (Malformed "{"))
    = (Return tt, world_with (Malformed "{")).
Proof.
  split.
  - by apply (ensure_data_dir_only_fills_a_gap (world_with Missing)).
  - by apply (ensure_data_dir_only_fills_a_gap (world_with (Malformed "{"))).
Defined.

(** X2. The reading operations never touch the store: whatever the file
    holds and whether they return or raise, list_agents, get_agent and
    get_enabled_agents leave the file, the count of writes and the calls
    on the LiveKit client as they were. *)
Theorem reads_never_write (w : world) (agent_id : string) :
  same_store_and_calls w (AgentService.list_agents w).2
  ∧ same_store_and_calls w (AgentService.get_agent agent_id w).2
  ∧ same_store_and_calls w (AgentService.get_enabled_agents w).2.
Proof.
  split; [apply list_agents_frame|]. split; [apply get_agent_frame|].
  unfold AgentService.get_enabled_agents.
  rewrite (bind_ret_world _ (filter (λ a, truthy (AgentConfig.enabled a) = true))).
  apply list_agents_frame.
Qed.

(** X3. Creating a configuration with a new string id and deleting that id
    gives back the record sequence: delete_agent returns True and the file
    holds [recs] again. *)
Theorem create_then_delete_restores
    (w : world) (recs : list dict) (config : AgentConfig.t) (s : string) :
  holds w recs → AgentConfig.id config = PStr s → no_id recs s →
  ∃ w1 w2,
    AgentService.create_agent config w = (Return config, w1)
    ∧ AgentService.delete_agent s w1 = (Return true, w2)
    ∧ agents_file w2 = store recs
    ∧ writes w2 = S (S (writes w)).
Proof.
  intros Hholds Hid Hnone.
  rewrite (create_agent_holds w recs Hholds).
  set (w1 := written (store (recs ++ [AgentConfig.to_dict config])) w).
  exists w1. rewrite (delete_agent_holds w1 (recs ++ [AgentConfig.to_dict config]));
    [|apply holds_written].
  assert (others s (recs ++ [AgentConfig.to_dict config]) = recs) as Hothers.
  { unfold others. rewrite filter_app, filter_cons, filter_nil.
    rewrite decide_False by (rewrite (id_is_to_dict config s Hid); done).
    rewrite app_nil_r. by apply others_all. }
  rewrite Hothers, length_app. simpl.
  assert ((length recs <? length recs + 1) = true) as -> by (apply Nat.ltb_lt; lia).
  eexists. by repeat split.
Qed.

Lemma create_then_delete_restores_witness :
  ∃ w1 w2,
    AgentService.create_agent carol sample_world = (Return carol, w1)
    ∧ AgentService.delete_agent "c3" w1 = (Return true, w2)
    ∧ agents_file w2 = store [alice; bob].
Proof.
  destruct (create_then_delete_restores sample_world [alice; bob] carol "c3")
    as (w1 & w2 & H1 & H2 & Hfile & _).
  - by apply holds_store.
  - reflexivity.
  - none_here.
  - by exists w1, w2.
Defined.

(** X4. Deleting an id a second time finds nothing: whatever the first
    delete_agent did, the second returns False and writes nothing. *)
Theorem delete_agent_twice (w : world) (recs : list dict) (agent_id : string) :
  holds w recs →
  AgentService.delete_agent agent_id (AgentService.delete_agent agent_id w).2
  = (Return false, (AgentService.delete_agent agent_id w).2).
Proof.
  intros Hholds.
  assert (holds (AgentService.delete_agent agent_id w).2 (others agent_id recs)) as H1.
  { rewrite (delete_agent_holds w recs Hholds).
    destruct (first_or_none recs agent_id) as [(i & d & Hi & Hd & _)|Hnone].
    - pose proof (others_shorter agent_id recs i d Hi Hd) as Hlt.
      apply Nat.ltb_lt in Hlt. rewrite Hlt. apply holds_written.
    - rewrite (others_all agent_id recs Hnone). by rewrite Nat.ltb_irrefl. }
  rewrite (delete_agent_holds _ _ H1).
  rewrite (others_all agent_id (others agent_id recs)) by apply others_no_id.
  by rewrite Nat.ltb_irrefl.
Qed.

Lemma delete_agent_twice_witness :
  AgentService.delete_agent "a1" (AgentService.delete_agent "a1" sample_world).2
  = (Return false, (AgentService.delete_agent "a1" sample_world).2).
Proof.
  apply (delete_agent_twice sample_world [alice; bob]). by apply holds_store.
Defined.

Lemma apply_kwargs_all_none (kwargs d : dict) :
  (∀ k v, (k, v) ∈ kwargs → v = PNone) → apply_kwargs d kwargs = d.
Proof.
  unfold apply_kwargs. induction kwargs as [|[k v] kwargs IH]; intros H; [done|].
  simpl. rewrite (H k v) by apply list_elem_of_here. simpl.
  apply IH. intros k' v' Hin. apply (H k'). by apply list_elem_of_further.
Qed.

(** X5. A call of update_agent with a keyword that is no field of
    AgentConfig and has a value other than None fails in one of two ways.
    When a keyword names a parameter of update_agent itself (self or
    agent_id) the call is refused before the body runs: TypeError, nothing
    read, nothing written. Otherwise the body writes before it reads the
    record back: the call raises TypeError, yet the file already holds the
    record with that key, and list_agents raises TypeError on the file from
    then on. *)
Theorem update_agent_unknown_key_is_stored
    (w : world) (recs : list dict) (agent_id : string) (keywords : dict)
    (i : nat) (d : dict) (k : string) (v : pyval) :
  holds w recs → first_with_id recs agent_id i d → NoDup keywords.*1 →
  (k, v) ∈ keywords → v ≠ PNone → k ∉ AgentConfig.fields →
  (existsb (λ kv, is_parameter_name kv.1) keywords = true →
   call_update_agent agent_id keywords w = (Raise TypeError, w))
  ∧ (existsb (λ kv, is_parameter_name kv.1) keywords = false →
     ∃ w',
       call_update_agent agent_id keywords w = (Raise TypeError, w')
       ∧ agents_file w' = store (<[i := apply_kwargs d keywords]> recs)
       ∧ dict_get (apply_kwargs d keywords) k = Some v
       ∧ writes w' = S (writes w)
       ∧ ∃ w'', AgentService.list_agents w' = (Raise TypeError, w'')).
Proof.
  intros Hholds Hfirst Hnd Hin Hv Hk. unfold call_update_agent. split.
  - by intros ->.
  - intros ->.
    pose proof (apply_kwargs_supplied keywords d k v Hnd Hin Hv) as Hget.
    pose proof (unknown_key_not_known _ k v Hget Hk) as Hunknown.
    rewrite (update_agent_found w recs Hholds agent_id keywords i d Hfirst).
    unfold bind. rewrite (from_dict_unknown _ _ Hunknown).
    eexists. split; [reflexivity|]. split; [done|]. split; [done|]. split; [done|].
    rewrite (list_agents_holds _ (<[i := apply_kwargs d keywords]> recs))
      by apply holds_written.
    apply for_each_from_dict_unknown, Exists_exists.
    exists (apply_kwargs d keywords). split; [|done].
    apply list_elem_of_lookup. exists i. apply list_lookup_insert_eq.
    destruct Hfirst as (Hi & _). by eapply lookup_lt_Some.
Qed.

Lemma update_agent_unknown_key_is_stored_witness :
  (∃ w',
     call_update_agent "a1" [("nickname", PStr "Al")] sample_world
     = (Raise TypeError, w')
     ∧ agents_file w' = store [alice ++ [("nickname", PStr "Al")]; bob]
     ∧ writes w' = 1
     ∧ ∃ w'', AgentService.list_agents w' = (Raise TypeError, w''))
  ∧ call_update_agent "a1" [("agent_id", PStr "b2")] sample_world
    = (Raise TypeError, sample_world).
Proof.
  split.
  - destruct (update_agent_unknown_key_is_stored sample_world [alice; bob] "a1"
                [("nickname", PStr "Al")] 0 alice "nickname" (PStr "Al"))
      as (_ & H).
    + by apply holds_store.
    + first_here.
    + decided.
    + apply list_elem_of_here.
    + discriminate.
    + intros H. unfold AgentConfig.fields in H.
      repeat (apply elem_of_cons in H as [H|H]; [discriminate|]).
      by apply elem_of_nil in H.
    + destruct (H eq_refl) as (w' & Hrun & Hfile & _ & Hwrites & Hlist).
      by exists w'.
  - destruct (update_agent_unknown_key_is_stored sample_world [alice; bob] "a1"
                [("agent_id", PStr "b2")] 0 alice "agent_id" (PStr "b2"))
      as (H & _).
    + by apply holds_store.
    + first_here.
    + decided.
    + apply list_elem_of_here.
    + discriminate.
    + intros H. unfold AgentConfig.fields in H.
      repeat (apply elem_of_cons in H as [H|H]; [discriminate|]).
      by apply elem_of_nil in H.
    + by apply H.
Defined.

(** X6. update_agent with nothing to set still rewrites the file: when
    every supplied value is None the matched record and the sequence are
    what they were, the configuration read from the record is returned, and
    the file has been written once more. *)
Theorem update_agent_nothing_supplied_rewrites
    (w : world) (recs : list dict) (agent_id : string) (kwargs : dict)
    (i : nat) (d : dict) :
  holds w recs → first_with_id recs agent_id i d →
  AgentConfig.known_keys d = true →
  (∀ k v, (k, v) ∈ kwargs → v = PNone) →
  ∃ c w',
    AgentService.update_agent agent_id kwargs w = (Return (Some c), w')
    ∧ shows c d
    ∧ agents_file w' = store recs
    ∧ writes w' = S (writes w).
Proof.
  intros Hholds Hfirst Hd Hnone.
  rewrite (update_agent_found w recs Hholds agent_id kwargs i d Hfirst).
  rewrite (apply_kwargs_all_none kwargs d Hnone).
  rewrite list_insert_id by (by destruct Hfirst).
  destruct (from_dict_known d (written (store recs) w) Hd)
    as (c & w' & Hfrom & Hshows & _ & Hw').
  exists c, w'. unfold bind. rewrite Hfrom. split; [done|]. split; [done|].
  rewrite Hw'. split; apply maybe_drawn_frame.
Qed.

Lemma update_agent_nothing_supplied_rewrites_witness :
  ∃ c w',
    AgentService.update_agent "b2" [("name", PNone); ("voice", PNone)] sample_world
    = (Return (Some c), w')
    ∧ agents_file w' = store [alice; bob]
    ∧ writes w' = 1.
Proof.
  destruct (update_agent_nothing_supplied_rewrites sample_world [alice; bob] "b2"
              [("name", PNone); ("voice", PNone)] 1 bob)
    as (c & w' & Hrun & _ & Hfile & Hwrites).
  - by apply holds_store.
  - first_here.
  - reflexivity.
  - intros k v Hin.
    repeat (apply elem_of_cons in Hin as [Hin|Hin]; [by injection Hin|]).
    by apply elem_of_nil in Hin.
  - by exists c, w'.
Defined.

(** X7. create_agent on a file that holds no store. When the file is
    missing, or the JSON parser finds a syntax error in it
    (JSONDecodeError), the file afterwards holds the one new record and the
    old text is gone. When reading the file fails with any other exception
    (bytes that are no UTF-8, nesting too deep for the parser, an integer
    with too many digits), that exception leaves create_agent and nothing
    is written. When the file holds a JSON object whose "agents" entry is
    not a list, or a JSON document that is no object, create_agent raises
    AttributeError and writes nothing. *)
Theorem create_agent_on_unreadable_file (w : world) (config : AgentConfig.t) :
  (agents_file w = Missing ∨ (∃ text, agents_file w = Malformed text) →
   AgentService.create_agent config w
   = (Return config, written (store [AgentConfig.to_dict config]) w))
  ∧ (∀ e, agents_file w = Unreadable e →
       AgentService.create_agent config w = (Raise e, w))
  ∧ (∀ data v, agents_file w = Json (PDict data) →
       dict_get data "agents" = Some v → (∀ l, v ≠ PList l) →
       AgentService.create_agent config w = (Raise AttributeError, w))
  ∧ (∀ doc, agents_file w = Json doc → (∀ data, doc ≠ PDict data) →
       AgentService.create_agent config w = (Raise AttributeError, w)).
Proof.
  unfold AgentService.create_agent, bind, AgentService._load_agents.
  split; [|split; [|split]].
  - by intros [->|[text ->]].
  - by intros e ->.
  - intros data v -> Hget Hv. unfold dict_get_default. rewrite Hget.
    destruct v; try done. by specialize (Hv l).
  - intros doc -> Hdoc. destruct doc; try done. by specialize (Hdoc d).
Qed.

Lemma create_agent_on_unreadable_file_witness :
  AgentService.create_agent carol (world_with (Malformed "{ agents: ["))
  = (Return carol,
     written (store [AgentConfig.to_dict carol]) (world_with (Malformed "{ agents: [")))
  ∧ AgentService.create_agent carol (world_with (Unreadable RecursionError))
    = (Raise RecursionError, world_with (Unreadable RecursionError))
  ∧ AgentService.create_agent carol (world_with (Json (PDict [("agents", PNone)])))
    = (Raise AttributeError, world_with (Json (PDict [("agents", PNone)]))).
Proof.
  split; [|split].
  - apply (create_agent_on_unreadable_file (world_with (Malformed "{ agents: ["))).
    right. by eexists.
  - destruct (create_agent_on_unreadable_file
                (world_with (Unreadable RecursionError)) carol) as (_ & H & _).
    by apply H.
  - destruct (create_agent_on_unreadable_file
                (world_with (Json (PDict [("agents", PNone)]))) carol)
      as (_ & _ & H & _).
    by apply (H [("agents", PNone)] PNone).
Defined.

Lemma dict_get_None_key (d : dict) (k : string) :
  k ∉ d.*1 → dict_get d k = None.
Proof.
  intros H. destruct (dict_get d k) as [v|] eqn:E; [|done].
  by apply dict_get_Some_key in E.
Qed.

(** X8. to_dict and from_dict are inverse to each other on whole records:
    to_dict gives exactly the ten fields; reading back what to_dict gives
    returns the configuration, without a draw, when its id is truthy; and
    a dictionary with all ten fields and a truthy id is what to_dict makes
    of the configuration read from it, key by key. *)
Theorem to_dict_from_dict_round_trip :
  (∀ c, (AgentConfig.to_dict c).*1 = AgentConfig.fields)
  ∧ (∀ c w, truthy (AgentConfig.id c) = true →
       AgentConfig.from_dict (PDict (AgentConfig.to_dict c)) w = (Return c, w))
  ∧ (∀ d w c w', AgentConfig.from_dict (PDict d) w = (Return c, w') →
       (∀ k, k ∈ AgentConfig.fields → is_Some (dict_get d k)) →
       truthy (dict_get_default d "id" PNone) = true →
       w' = w ∧ ∀ k, dict_get (AgentConfig.to_dict c) k = dict_get d k).
Proof.
  split; [done|]. split; [apply from_dict_to_dict|].
  intros d w c w' Hfrom Hall Hid.
  destruct (AgentConfig.known_keys d) eqn:Hk;
    [|by rewrite (from_dict_unknown d w Hk) in Hfrom].
  destruct (from_dict_known d w Hk) as (c0 & w0 & Hfrom0 & Hshows & _ & Hw0).
  rewrite Hfrom0 in Hfrom. injection Hfrom as -> ->. rewrite Hid in Hw0.
  split; [done|]. intros k.
  destruct (decide (k ∈ AgentConfig.fields)) as [Hin|Hout].
  - destruct (Hall k Hin) as [v Hv]. rewrite Hv. apply Hshows; [done|].
    intros ->. unfold dict_get_default in Hid. by rewrite Hv in Hid.
  - rewrite (dict_get_None_key d k).
    + by apply dict_get_None_key.
    + intros Hd. apply Hout. by apply (proj1 (known_keys_spec d) Hk).
Qed.

Lemma to_dict_from_dict_round_trip_witness :
  AgentConfig.from_dict (PDict (AgentConfig.to_dict carol)) sample_world
  = (Return carol, sample_world)
  ∧ ∃ c, AgentConfig.from_dict (PDict alice) sample_world = (Return c, sample_world)
      ∧ ∀ k, dict_get (AgentConfig.to_dict c) k = dict_get alice k.
Proof.
  destruct to_dict_from_dict_round_trip as (_ & Hto & Hfrom). split.
  - by apply Hto.
  - eexists. split; [reflexivity|].
    eapply (Hfrom alice sample_world _ sample_world); [reflexivity| |reflexivity].
    intros k Hk. unfold AgentConfig.fields in Hk.
    repeat (apply elem_of_cons in Hk as [->|Hk]; [by eexists|]).
    by apply elem_of_nil in Hk.
Defined.

Lemma known_keys_to_dict (c : AgentConfig.t) :
  AgentConfig.known_keys (AgentConfig.to_dict c) = true.
Proof. done. Qed.

Lemma known_keys_toggled (d : dict) :
  AgentConfig.known_keys d = true → AgentConfig.known_keys (toggled d) = true.
Proof.
  intros H. apply known_keys_set; [done|]. apply list_elem_of_In. simpl. tauto.
Qed.

(** One operation with known keywords takes a store whose records have only
    known keys to such a store. *)
Lemma perform_keeps_known_keys (w : world) (recs : list dict) (o : operation) :
  holds w recs → Forall (λ d, AgentConfig.known_keys d = true) recs →
  keeps_known_keys o →
  ∃ recs', holds (perform o w) recs'
    ∧ Forall (λ d, AgentConfig.known_keys d = true) recs'.
Proof.
  intros Hholds Hall Ho. destruct o as [config|agent_id kwargs|agent_id|agent_id];
    simpl in *.
  - rewrite (create_agent_holds w recs Hholds).
    exists (recs ++ [AgentConfig.to_dict config]). split; [apply holds_written|].
    apply Forall_app. split; [done|]. by constructor.
  - destruct (first_or_none recs agent_id) as [(i & d & Hfirst)|Hnone].
    + rewrite (update_agent_found w recs Hholds agent_id kwargs i d Hfirst).
      rewrite (bind_ret_world _ Some).
      exists (<[i := apply_kwargs d kwargs]> recs). split.
      * apply holds_store.
        by destruct (from_dict_frame (PDict (apply_kwargs d kwargs))
                       (written (store (<[i := apply_kwargs d kwargs]> recs)) w))
          as (-> & _).
      * apply Forall_insert; [done|]. apply known_keys_apply_kwargs; [|done].
        destruct Hfirst as (Hi & _).
        by apply (proj1 (Forall_lookup _ _) Hall i d).
    + rewrite (update_agent_none w recs Hholds agent_id kwargs Hnone). by exists recs.
  - exists (others agent_id recs). split.
    + rewrite (delete_agent_holds w recs Hholds).
      destruct (first_or_none recs agent_id) as [(i & d & Hi & Hd & _)|Hnone].
      * pose proof (others_shorter agent_id recs i d Hi Hd) as Hlt.
        apply Nat.ltb_lt in Hlt. rewrite Hlt. apply holds_written.
      * rewrite (others_all agent_id recs Hnone). by rewrite Nat.ltb_irrefl.
    + apply Forall_forall. intros d Hd.
      apply list_elem_of_filter in Hd as [_ Hd].
      by apply (proj1 (Forall_forall _ _) Hall).
  - destruct (first_or_none recs agent_id) as [(i & d & Hfirst)|Hnone].
    + rewrite (toggle_agent_found w recs Hholds agent_id i d Hfirst).
      rewrite (bind_ret_world _ Some).
      exists (<[i := toggled d]> recs). split.
      * apply holds_store.
        by destruct (from_dict_frame (PDict (toggled d))
                       (written (store (<[i := toggled d]> recs)) w))
          as (-> & _).
      * apply Forall_insert; [done|]. apply known_keys_toggled.
        destruct Hfirst as (Hi & _).
        by apply (proj1 (Forall_lookup _ _) Hall i d).
    + rewrite (toggle_agent_none w recs Hholds agent_id Hnone). by exists recs.
Qed.

(** X9. A store stays readable: starting from records that carry only
    fields of AgentConfig, after any sequence of create, update, delete and
    toggle operations whose update keywords all name fields, the file holds
    such records again and list_agents returns one configuration per
    stored record, each showing its record. *)
Theorem store_stays_readable (ops : list operation) (w : world) (recs : list dict) :
  holds w recs → Forall (λ d, AgentConfig.known_keys d = true) recs →
  Forall keeps_known_keys ops →
  ∃ recs' l w',
    holds (perform_all ops w) recs'
    ∧ Forall (λ d, AgentConfig.known_keys d = true) recs'
    ∧ AgentService.list_agents (perform_all ops w) = (Return l, w')
    ∧ Forall2 shows l recs'.
Proof.
  intros Hholds Hall Hops.
  assert (∃ recs', holds (perform_all ops w) recs'
            ∧ Forall (λ d, AgentConfig.known_keys d = true) recs')
    as (recs' & Hholds' & Hall').
  { revert w recs Hholds Hall.
    induction Hops as [|o rest Ho Hrest IH]; intros w recs Hholds Hall.
    - by exists recs.
    - destruct (perform_keeps_known_keys w recs o Hholds Hall Ho)
        as (recs1 & Hholds1 & Hall1).
      by apply (IH (perform o w) recs1). }
  rewrite (list_agents_holds _ recs' Hholds').
  destruct (for_each_from_dict recs' (perform_all ops w) Hall')
    as (l & w' & Hl & Hshows & _).
  by exists recs', l, w'.
Qed.

Lemma store_stays_readable_witness :
  ∃ recs' l w',
    holds (perform_all [Create carol; Update "a1" [("voice", PStr "Aoede")];
                        Toggle "b2"; Delete "zz"] sample_world) recs'
    ∧ AgentService.list_agents
        (perform_all [Create carol; Update "a1" [("voice", PStr "Aoede")];
                      Toggle "b2"; Delete "zz"] sample_world) = (Return l, w')
    ∧ Forall2 shows l recs'.
Proof.
  destruct (store_stays_readable
              [Create carol; Update "a1" [("voice", PStr "Aoede")];
               Toggle "b2"; Delete "zz"] sample_world [alice; bob])
    as (recs' & l & w' & Hholds & _ & Hlist & Hshows).
  - by apply holds_store.
  - by repeat constructor.
  - by repeat constructor.
  - by exists recs', l, w'.
Defined.

Lemma from_dict_enabled (d : dict) (c : AgentConfig.t) (w w' : world) :
  AgentConfig.from_dict (PDict d) w = (Return c, w') →
  AgentConfig.enabled c = dict_get_default d "enabled" (PBool true).
Proof.
  simpl. unfold AgentConfig.call_kwargs.
  destruct (AgentConfig.known_keys d); [|done].
  unfold AgentConfig.__init__, bind.
  destruct (id_or_fresh_frame (dict_get_default d "id" PNone) w) as [v' ->].
  intros H. by injection H as <- _.
Qed.

Lemma from_dict_reads_as (d : dict) (c : AgentConfig.t) (w w' : world) :
  AgentConfig.from_dict (PDict d) w = (Return c, w') → reads_as c d.
Proof.
  simpl. unfold AgentConfig.call_kwargs.
  destruct (AgentConfig.known_keys d); [|done].
  unfold AgentConfig.__init__, bind, AgentConfig.id_or_fresh.
  destruct (truthy (dict_get_default d "id" PNone)) eqn:E.
  - unfold ret. intros [= <- _]. unfold reads_as. simpl. by repeat split.
  - unfold bind, uuid4, ret. intros [= <- _]. unfold reads_as.
    split; [intros H; congruence|].
    split; [apply uuid_str_truthy|]. by repeat split.
Qed.

Lemma for_each_from_dict_reads_as (recs : list dict) (w w' : world)
    (l : list AgentConfig.t) :
  for_each AgentConfig.from_dict (PDict <$> recs) w = (Return l, w') →
  Forall2 reads_as l recs.
Proof.
  revert w w' l. induction recs as [|d rest IH]; intros w w' l.
  - intros H. injection H as <- _. constructor.
  - cbn [fmap list_fmap for_each]. unfold bind at 1.
    destruct (AgentConfig.from_dict (PDict d) w) as [[c|e] w1] eqn:Hd; [|done].
    unfold bind at 1. change (list_fmap _ _ PDict rest) with (PDict <$> rest).
    destruct (for_each AgentConfig.from_dict (PDict <$> rest) w1) as [[cs|e] w2] eqn:Hr;
      [|done].
    intros H. injection H as <- _. constructor.
    + by eapply from_dict_reads_as.
    + by eapply IH.
Qed.

(** X10. get_enabled_agents returns the stored records whose enabled flag
    is truthy, a record without the flag counting as enabled: on a store
    of records with known keys it returns, in store order, exactly one
    configuration for each such record and none for the others, and each
    configuration carries every field of its record, with the default of
    the field where the record has none. *)
Theorem get_enabled_agents_reads_stored_flags (w : world) (recs : list dict) :
  holds w recs → Forall (λ d, AgentConfig.known_keys d = true) recs →
  ∃ l w',
    AgentService.get_enabled_agents w = (Return l, w')
    ∧ Forall (λ c, truthy (AgentConfig.enabled c) = true) l
    ∧ Forall2 reads_as l
        (filter (λ d, truthy (dict_get_default d "enabled" (PBool true)) = true) recs)
    ∧ Forall2 shows l
        (filter (λ d, truthy (dict_get_default d "enabled" (PBool true)) = true) recs).
Proof.
  intros Hholds Hall.
  destruct (for_each_from_dict recs w Hall) as (l & w' & Hl & Hshows & _).
  pose proof (for_each_from_dict_reads_as recs w w' l Hl) as Hreads.
  assert (Forall2 (λ c d, reads_as c d ∧ shows c d) l recs) as Hboth.
  { clear Hl Hholds Hall. induction Hshows as [|c d l recs Hc Hrest IH].
    - constructor.
    - apply Forall2_cons_1 in Hreads as [Hr Hreads]. constructor; [done|].
      by apply IH. }
  assert (Forall2 (λ c d, reads_as c d ∧ shows c d)
            (filter (λ a, truthy (AgentConfig.enabled a) = true) l)
            (filter (λ d, truthy (dict_get_default d "enabled" (PBool true)) = true)
               recs)) as Hfiltered.
  { eapply Forall2_filter; [|exact Hboth].
    intros c d [(_ & _ & _ & Hen & _) _]. simpl. by rewrite Hen. }
  exists (filter (λ a, truthy (AgentConfig.enabled a) = true) l), w'.
  unfold AgentService.get_enabled_agents, bind.
  rewrite (list_agents_holds w recs Hholds), Hl. split; [done|]. split.
  - apply Forall_forall. intros c Hc. by apply list_elem_of_filter in Hc as [Hc _].
  - split; (eapply Forall2_impl; [exact Hfiltered|]); by intros c d [? ?].
Qed.

Lemma get_enabled_agents_reads_stored_flags_witness :
  ∃ c w', AgentService.get_enabled_agents sample_world = (Return [c], w')
    ∧ AgentConfig.id c = PStr "a1"
    ∧ AgentConfig.name c = PStr "Alice"
    ∧ AgentConfig.voice c = PStr "Kore".
Proof.
  destruct (get_enabled_agents_reads_stored_flags sample_world [alice; bob])
    as (l & w' & Hrun & _ & Hreads & _).
  - by apply holds_store.
  - by repeat constructor.
  - change (filter _ [alice; bob]) with [alice] in Hreads.
    apply Forall2_cons_inv_r in Hreads as (c & l' & Hc & Hl' & ->).
    apply Forall2_nil_inv_r in Hl' as ->.
    destruct Hc as (Hid & _ & Hname & _ & _ & _ & Hvoice & _).
    exists c, w'. split; [exact Hrun|]. split; [by apply Hid|]. by split.
Defined.

(** * Further properties of the routes *)

Lemma past_guards {A} (deps : collaborators) (csrf_token : string) (m : M A)
    (w : world) :
  is_admin deps = true → csrf_matches deps csrf_token = true →
  (_ <- requires_admin deps ;; _ <- verify_csrf_token deps csrf_token ;; m) w = m w.
Proof.
  intros Hadmin Hcsrf. unfold bind, requires_admin, verify_csrf_token.
  by rewrite Hadmin, Hcsrf.
Qed.

Lemma lower_char_t (c : ascii) :
  lower_char c = "t"%char → c = "t"%char ∨ c = "T"%char.
Proof.
  destruct c as [[] [] [] [] [] [] [] []]; vm_compute; intros H;
    try discriminate H; auto.
Qed.

Lemma lower_char_r (c : ascii) :
  lower_char c = "r"%char → c = "r"%char ∨ c = "R"%char.
Proof.
  destruct c as [[] [] [] [] [] [] [] []]; vm_compute; intros H;
    try discriminate H; auto.
Qed.

Lemma lower_char_u (c : ascii) :
  lower_char c = "u"%char → c = "u"%char ∨ c = "U"%char.
Proof.
  destruct c as [[] [] [] [] [] [] [] []]; vm_compute; intros H;
    try discriminate H; auto.
Qed.

Lemma lower_char_e (c : ascii) :
  lower_char c = "e"%char → c = "e"%char ∨ c = "E"%char.
Proof.
  destruct c as [[] [] [] [] [] [] [] []]; vm_compute; intros H;
    try discriminate H; auto.
Qed.

(** X11. The agents feature is on exactly when ENABLE_AGENTS is unset or is
    the word true in some mix of upper and lower case: every other value,
    the empty string, 1 or yes among them, turns it off. *)
Theorem is_agents_enabled_iff (environ : string → option string) :
  (environ "ENABLE_AGENTS" = None → routes.is_agents_enabled environ = true)
  ∧ (∀ value, environ "ENABLE_AGENTS" = Some value →
       (routes.is_agents_enabled environ = true
        ↔ ∃ c1 c2 c3 c4,
            value = String c1 (String c2 (String c3 (String c4 "")))
            ∧ (c1 = "t" ∨ c1 = "T") ∧ (c2 = "r" ∨ c2 = "R")
            ∧ (c3 = "u" ∨ c3 = "U") ∧ (c4 = "e" ∨ c4 = "E"))%char).
Proof.
  unfold routes.is_agents_enabled. split; [by intros ->|].
  intros value ->. simpl default. rewrite String.eqb_eq. split.
  - destruct value as [|c1 [|c2 [|c3 [|c4 [|c5 rest]]]]]; simpl; intros H;
      try discriminate H.
    injection H as H1 H2 H3 H4.
    exists c1, c2, c3, c4. split; [done|].
    split; [by apply lower_char_t|]. split; [by apply lower_char_r|].
    split; [by apply lower_char_u|by apply lower_char_e].
  - intros (c1 & c2 & c3 & c4 & -> & [->| ->] & [->| ->] & [->| ->] & [->| ->]);
      reflexivity.
Qed.

Lemma is_agents_enabled_iff_witness :
  routes.is_agents_enabled (environ_with None) = true
  ∧ routes.is_agents_enabled (environ_with (Some "True")) = true
  ∧ routes.is_agents_enabled (environ_with (Some "1")) = false.
Proof.
  destruct (is_agents_enabled_iff (environ_with None)) as [Hnone _].
  destruct (is_agents_enabled_iff (environ_with (Some "True"))) as [_ Htrue].
  destruct (is_agents_enabled_iff (environ_with (Some "1"))) as [_ Hone].
  split; [by apply Hnone|]. split.
  - apply (Htrue "True"); [reflexivity|].
    exists "T"%char, "r"%char, "u"%char, "e"%char. by repeat split; auto.
  - pose proof (proj1 (Hone "1" eq_refl)) as H1.
    destruct (routes.is_agents_enabled (environ_with (Some "1"))); [|done].
    destruct (H1 eq_refl) as (c1 & c2 & c3 & c4 & H & _). discriminate H.
Defined.

(** X12. The list route, for an admin: with the feature off it answers with
    the 403 page and does not read the store, the world is untouched; with
    the feature on it shows what list_agents returns together with the two
    catalogs, and an exception of list_agents is not caught: it leaves the
    route as it is. *)
Theorem agents_index_feature_gate
    (deps : collaborators) (environ : string → option string)
    (flash_message flash_type : option string) (w : world) :
  is_admin deps = true →
  (routes.is_agents_enabled environ = false →
   routes.agents_index deps environ flash_message flash_type w
   = (Return (FeatureDisabledPage "base.html.j2"
                "Agents feature is not enabled. Set ENABLE_AGENTS=true." 403), w))
  ∧ (routes.is_agents_enabled environ = true →
     (∀ agents w', AgentService.list_agents w = (Return agents, w') →
        routes.agents_index deps environ flash_message flash_type w
        = (Return (IndexPage "agents/index.html.j2" agents MODEL_PROVIDERS VOICES
                     flash_message flash_type (get_csrf_token deps)), w'))
     ∧ (∀ e w', AgentService.list_agents w = (Raise e, w') →
          routes.agents_index deps environ flash_message flash_type w
          = (Raise e, w'))).
Proof.
  intros Hadmin. unfold routes.agents_index, bind, requires_admin, ret.
  rewrite Hadmin. split.
  - by intros ->.
  - intros ->. cbn beta iota delta [negb].
    split; intros ? w' H; by rewrite H.
Qed.

Lemma agents_index_feature_gate_witness :
  routes.agents_index sample_deps (environ_with (Some "off")) None None
    (world_with (Json (PList [])))
  = (Return (FeatureDisabledPage "base.html.j2"
               "Agents feature is not enabled. Set ENABLE_AGENTS=true." 403),
     world_with (Json (PList [])))
  ∧ routes.agents_index sample_deps (environ_with None) None None
      (world_with (Json (PList [])))
    = (Raise AttributeError, world_with (Json (PList []))).
Proof.
  split.
  - by apply (agents_index_feature_gate sample_deps (environ_with (Some "off"))).
  - destruct (agents_index_feature_gate sample_deps (environ_with None) None None
                (world_with (Json (PList [])))) as (_ & H); [reflexivity|].
    destruct H as [_ H]; [reflexivity|]. by apply H.
Defined.

(** X13. Past the admin guard and the CSRF check, the create, update,
    delete and toggle routes never raise and never render a page: whatever
    the file holds, each answers with a 303 redirect to the list page that
    carries a flash of type success or error. *)
Theorem mutating_routes_always_redirect
    (deps : collaborators) (str_exn : exn → string) (w : world)
    (agent_id csrf_token name model_provider model voice first_message : string)
    (noise_cancellation : bool) (n8n_mcp_url metadata : option string) :
  is_admin deps = true → csrf_matches deps csrf_token = true →
  flashes (routes.create_agent deps str_exn csrf_token name model_provider model
             voice first_message noise_cancellation n8n_mcp_url metadata w)
  ∧ flashes (routes.update_agent deps str_exn agent_id csrf_token name model_provider
               model voice first_message noise_cancellation n8n_mcp_url metadata w)
  ∧ flashes (routes.delete_agent deps str_exn agent_id csrf_token w)
  ∧ flashes (routes.toggle_agent deps str_exn agent_id csrf_token w).
Proof.
  intros Hadmin Hcsrf. unfold flashes. split; [|split; [|split]].
  - unfold routes.create_agent. rewrite past_guards by done.
    unfold try_except, bind.
    destruct (AgentConfig.__init__ _ _ _ _ _ _ _ _ _ _ w) as [[agent|e] w0];
      [destruct (AgentService.create_agent agent w0) as [[c|e] w1]|];
      eexists _, _; (split; [reflexivity|auto]).
  - unfold routes.update_agent. rewrite past_guards by done.
    unfold try_except, bind.
    destruct (AgentService.update_agent _ _ w) as [[[c|]|e] w0];
      eexists _, _; (split; [reflexivity|auto]).
  - unfold routes.delete_agent. rewrite past_guards by done.
    unfold try_except, bind.
    destruct (AgentService.delete_agent _ w) as [[[]|e] w0];
      eexists _, _; (split; [reflexivity|auto]).
  - unfold routes.toggle_agent. rewrite past_guards by done.
    unfold try_except, bind.
    destruct (AgentService.toggle_agent _ w) as [[[c|]|e] w0];
      eexists _, _; (split; [reflexivity|auto]).
Qed.

Lemma mutating_routes_always_redirect_witness :
  flashes (routes.create_agent sample_deps sample_str_exn "tok" "Dan" "google"
             "gemini-1.5-pro" "Puck" "Hi" false None None
             (world_with (Json (PDict [("agents", PInt 5)]))))
  ∧ flashes (routes.toggle_agent sample_deps sample_str_exn "a1" "tok"
               (world_with (Json (PList [])))).
Proof.
  split.
  - destruct (mutating_routes_always_redirect sample_deps sample_str_exn
                (world_with (Json (PDict [("agents", PInt 5)]))) "a1" "tok"
                "Dan" "google" "gemini-1.5-pro" "Puck" "Hi" false None None)
      as (H & _); [reflexivity|reflexivity|exact H].
  - destruct (mutating_routes_always_redirect sample_deps sample_str_exn
                (world_with (Json (PList []))) "a1" "tok"
                "Dan" "google" "gemini-1.5-pro" "Puck" "Hi" false None None)
      as (_ & _ & _ & H); [reflexivity|reflexivity|exact H].
Defined.

(** X14. The create route, past the guards, on a store that holds [recs]:
    the id of the new record is never taken from the form but is the
    identifier of the next draw of entropy, the record is enabled, an
    omitted webhook URL or metadata is stored as the empty string, the
    record goes after the stored ones and the answer is the success flash
    naming the agent. When the store refuses the append, the draw is
    consumed all the same and the answer is the error flash carrying the
    text of the exception. *)
Theorem create_route_stores_generated_id
    (deps : collaborators) (str_exn : exn → string) (w : world) (recs : list dict)
    (csrf_token name model_provider model voice first_message : string)
    (noise_cancellation : bool) (n8n_mcp_url metadata : option string) :
  is_admin deps = true → csrf_matches deps csrf_token = true →
  (holds w recs →
   routes.create_agent deps str_exn csrf_token name model_provider model voice
     first_message noise_cancellation n8n_mcp_url metadata w
   = (Return (flash_redirect ("Agent '" +:+ name +:+ "' created successfully") "success"),
      written (store (recs ++ [created_record (next_id w) name model_provider model
                                 voice first_message noise_cancellation
                                 n8n_mcp_url metadata]))
        (drawn w)))
  ∧ (∀ e w',
       AgentService.create_agent
         (AgentConfig.mk (next_id w) (PStr name) (PBool true) (PStr model_provider)
            (PStr model) (PStr voice) (PStr first_message) (PBool noise_cancellation)
            (PStr (default "" n8n_mcp_url)) (PStr (default "" metadata)))
         (drawn w) = (Raise e, w') →
       routes.create_agent deps str_exn csrf_token name model_provider model voice
         first_message noise_cancellation n8n_mcp_url metadata w
       = (Return (flash_redirect ("Error creating agent: " +:+ str_exn e) "error"),
          drawn w)).
Proof.
  intros Hadmin Hcsrf. split.
  - intros Hholds. unfold routes.create_agent. rewrite past_guards by done.
    unfold try_except, AgentConfig.__init__, bind.
    rewrite id_or_fresh_falsy by done. unfold ret at 1.
    by rewrite (create_agent_holds (drawn w) recs
                  (holds_same_file w (drawn w) recs eq_refl Hholds)).
  - intros e w' Hraise. unfold routes.create_agent. rewrite past_guards by done.
    unfold try_except, AgentConfig.__init__, bind.
    rewrite id_or_fresh_falsy by done. unfold ret at 1. rewrite Hraise.
    assert (w' = drawn w) as ->; [|done].
    revert Hraise. unfold AgentService.create_agent, bind.
    pose proof (load_world (drawn w)) as Hw.
    destruct (AgentService._load_agents (drawn w)) as [[agents|e0] w0];
      simpl in Hw; subst w0; [|by intros [= _ <-]].
    destruct agents; by intros [= _ <-].
Qed.

Lemma create_route_stores_generated_id_witness :
  routes.create_agent sample_deps sample_str_exn "tok" "Dan" "google"
    "gemini-1.5-pro" "Puck" "Hi" false None (Some "m") sample_world
  = (Return (flash_redirect "Agent 'Dan' created successfully" "success"),
     written (store [alice; bob;
                     created_record (PStr "00000000-0000-4000-8000-000000000000")
                       "Dan" "google" "gemini-1.5-pro" "Puck" "Hi" false None (Some "m")])
       (drawn sample_world)).
Proof.
  destruct (create_route_stores_generated_id sample_deps sample_str_exn sample_world
              [alice; bob] "tok" "Dan" "google" "gemini-1.5-pro" "Puck" "Hi" false
              None (Some "m")) as [H _]; [reflexivity|reflexivity|].
  rewrite H; [reflexivity|]. by apply holds_store.
Defined.

Lemma update_kwargs_values (k : string) (v : pyval)
    (name model_provider model voice first_message : string)
    (noise_cancellation : bool) (n8n_mcp_url metadata : option string) :
  (k, v) ∈ routes.update_kwargs name model_provider model voice first_message
             noise_cancellation n8n_mcp_url metadata →
  v ≠ PNone ∧ k ≠ "id" ∧ k ≠ "enabled".
Proof.
  unfold routes.update_kwargs. intros H.
  repeat (apply elem_of_cons in H as [H|H]; [by injection H as -> ->|]).
  by apply elem_of_nil in H.
Qed.

(** X15. The update route, past the guards, on the first record with the
    id: every one of the eight form fields is written, an omitted webhook
    URL or metadata as the empty string, so that a value stored before is
    erased; the id and the enabled flag are never touched, hence pairwise
    distinct ids stay pairwise distinct; and when the record carries only
    fields of AgentConfig the answer is the success flash naming the
    agent. *)
Theorem update_route_keeps_id_and_enabled
    (deps : collaborators) (str_exn : exn → string) (w : world) (recs : list dict)
    (agent_id csrf_token name model_provider model voice first_message : string)
    (noise_cancellation : bool) (n8n_mcp_url metadata : option string)
    (i : nat) (d : dict) :
  is_admin deps = true → csrf_matches deps csrf_token = true →
  holds w recs → first_with_id recs agent_id i d →
  ∃ d' resp w',
    routes.update_agent deps str_exn agent_id csrf_token name model_provider model
      voice first_message noise_cancellation n8n_mcp_url metadata w = (Return resp, w')
    ∧ agents_file w' = store (<[i := d']> recs)
    ∧ (∀ k v, (k, v) ∈ routes.update_kwargs name model_provider model voice
                first_message noise_cancellation n8n_mcp_url metadata →
         dict_get d' k = Some v)
    ∧ dict_get d' "id" = dict_get d "id"
    ∧ dict_get d' "enabled" = dict_get d "enabled"
    ∧ (unique_ids recs → unique_ids (<[i := d']> recs))
    ∧ (AgentConfig.known_keys d = true →
       resp = flash_redirect ("Agent '" +:+ name +:+ "' updated successfully") "success").
Proof.
  intros Hadmin Hcsrf Hholds Hfirst.
  set (kwargs := routes.update_kwargs name model_provider model voice first_message
                   noise_cancellation n8n_mcp_url metadata).
  assert (NoDup kwargs.*1) as Hnd by decided.
  assert (∀ k, (k = "id" ∨ k = "enabled") →
            dict_get (apply_kwargs d kwargs) k = dict_get d k) as Hkept.
  { intros k Hk. apply apply_kwargs_untouched. intros v Hin.
    apply update_kwargs_values in Hin as (_ & Hid & Hen). by destruct Hk. }
  unfold routes.update_agent. rewrite past_guards by done.
  unfold try_except, bind at 1. fold kwargs.
  rewrite (update_agent_found w recs Hholds agent_id kwargs i d Hfirst).
  set (d' := apply_kwargs d kwargs) in *.
  set (w1 := written (store (<[i := d']> recs)) w).
  pose proof (from_dict_frame (PDict d') w1) as (Hfile & _).
  unfold bind.
  destruct (AgentConfig.from_dict (PDict d') w1) as [[c|e] w'] eqn:Hfrom;
    simpl in Hfile; exists d'; eexists _, w';
    (split; [reflexivity|]); (split; [done|]);
    (split; [intros k v Hin; apply apply_kwargs_supplied; [done|done|];
             by apply update_kwargs_values in Hin as (Hv & _)|]);
    (split; [apply Hkept; by left|]); (split; [apply Hkept; by right|]);
    (split; [intros Huniq; unfold unique_ids;
             rewrite (ids_insert_same recs i d); [done|by destruct Hfirst|];
             unfold dict_get_default; by rewrite Hkept by (by left)|]).
  - done.
  - intros Hd. exfalso.
    destruct (from_dict_known d' w1) as (c & w0 & Hfrom' & _).
    { apply known_keys_apply_kwargs; [done|reflexivity]. }
    rewrite Hfrom' in Hfrom. discriminate Hfrom.
Qed.

Lemma update_route_keeps_id_and_enabled_witness :
  ∃ d' w',
    routes.update_agent sample_deps sample_str_exn "b2" "tok" "Bobby" "openai"
      "gpt-4o-mini" "echo" "Yo" true None None sample_world
    = (Return (flash_redirect "Agent 'Bobby' updated successfully" "success"), w')
    ∧ agents_file w' = store [alice; d']
    ∧ dict_get d' "metadata" = Some (PStr "")
    ∧ dict_get d' "enabled" = Some (PBool false).
Proof.
  destruct (update_route_keeps_id_and_enabled sample_deps sample_str_exn sample_world
              [alice; bob] "b2" "tok" "Bobby" "openai" "gpt-4o-mini" "echo" "Yo"
              true None None 1 bob)
    as (d' & resp & w' & Hrun & Hfile & Hset & _ & Hen & _ & Hresp);
    [reflexivity|reflexivity|by apply holds_store|first_here|].
  exists d', w'. rewrite Hrun, (Hresp eq_refl). split; [done|]. split; [done|].
  split; [|by rewrite Hen].
  apply Hset. unfold routes.update_kwargs.
  do 7 apply list_elem_of_further. apply list_elem_of_here.
Defined.

(** X16. For an id that no stored record has, the update, delete and toggle
    routes, past the guards, answer with the error flash "Agent not found"
    and leave the world as it is: nothing is written. *)
Theorem routes_report_unknown_id
    (deps : collaborators) (str_exn : exn → string) (w : world) (recs : list dict)
    (agent_id csrf_token name model_provider model voice first_message : string)
    (noise_cancellation : bool) (n8n_mcp_url metadata : option string) :
  is_admin deps = true → csrf_matches deps csrf_token = true →
  holds w recs → no_id recs agent_id →
  routes.update_agent deps str_exn agent_id csrf_token name model_provider model
    voice first_message noise_cancellation n8n_mcp_url metadata w
  = (Return (flash_redirect "Agent not found" "error"), w)
  ∧ routes.delete_agent deps str_exn agent_id csrf_token w
    = (Return (flash_redirect "Agent not found" "error"), w)
  ∧ routes.toggle_agent deps str_exn agent_id csrf_token w
    = (Return (flash_redirect "Agent not found" "error"), w).
Proof.
  intros Hadmin Hcsrf Hholds Hnone. split; [|split].
  - unfold routes.update_agent. rewrite past_guards by done.
    unfold try_except, bind.
    by rewrite (update_agent_none w recs Hholds agent_id _ Hnone).
  - unfold routes.delete_agent. rewrite past_guards by done.
    unfold try_except, bind. rewrite (delete_agent_holds w recs Hholds).
    rewrite (others_all agent_id recs Hnone). by rewrite Nat.ltb_irrefl.
  - unfold routes.toggle_agent. rewrite past_guards by done.
    unfold try_except, bind.
    by rewrite (toggle_agent_none w recs Hholds agent_id Hnone).
Qed.

Lemma routes_report_unknown_id_witness :
  routes.delete_agent sample_deps sample_str_exn "zz" "tok" sample_world
  = (Return (RedirectResponse
               "/agents?flash_message=Agent%20not%20found&flash_type=error" 303),
     sample_world).
Proof.
  apply (routes_report_unknown_id sample_deps sample_str_exn sample_world
           [alice; bob] "zz" "tok" "" "" "" "" "" false None None);
    [reflexivity|reflexivity|by apply holds_store|none_here].
Defined.

Lemma from_dict_name (d : dict) (c : AgentConfig.t) (w w' : world) :
  AgentConfig.from_dict (PDict d) w = (Return c, w') →
  AgentConfig.name c = dict_get_default d "name" (PStr "").
Proof.
  simpl. unfold AgentConfig.call_kwargs.
  destruct (AgentConfig.known_keys d); [|done].
  unfold AgentConfig.__init__, bind.
  destruct (id_or_fresh_frame (dict_get_default d "id" PNone) w) as [v' ->].
  intros H. by injection H as <- _.
Qed.

(** X17. The toggle route, past the guards, reports the state it has just
    stored: for the first record with the id, carrying only fields of
    AgentConfig, the success flash names the agent and says disabled when
    the stored flag was truthy (or missing) and enabled when it was not,
    and the file holds the toggled record in its place. *)
Theorem toggle_route_reports_new_state
    (deps : collaborators) (str_exn : exn → string) (w : world) (recs : list dict)
    (agent_id csrf_token : string) (i : nat) (d : dict) :
  is_admin deps = true → csrf_matches deps csrf_token = true →
  holds w recs → first_with_id recs agent_id i d →
  AgentConfig.known_keys d = true →
  ∃ w',
    routes.toggle_agent deps str_exn agent_id csrf_token w
    = (Return (flash_redirect
                 ("Agent '" +:+ py_str deps (dict_get_default d "name" (PStr "")) +:+ "' "
                  +:+ (if truthy (dict_get_default d "enabled" (PBool true))
                       then "disabled" else "enabled"))
                 "success"), w')
    ∧ agents_file w' = store (<[i := toggled d]> recs)
    ∧ writes w' = S (writes w).
Proof.
  intros Hadmin Hcsrf Hholds Hfirst Hd.
  unfold routes.toggle_agent. rewrite past_guards by done.
  unfold try_except, bind at 1.
  rewrite (toggle_agent_found w recs Hholds agent_id i d Hfirst).
  set (w1 := written (store (<[i := toggled d]> recs)) w).
  destruct (from_dict_known (toggled d) w1 (known_keys_toggled d Hd))
    as (c & w' & Hfrom & _ & _ & Hw').
  pose proof (from_dict_name _ _ _ _ Hfrom) as Hname.
  pose proof (from_dict_enabled _ _ _ _ Hfrom) as Hen.
  unfold toggled in Hname at 1, Hen at 1.
  rewrite dict_get_default_set_ne in Hname by done.
  rewrite dict_get_default_set_eq in Hen.
  exists w'. unfold bind. rewrite Hfrom. unfold ret at 1.
  rewrite Hname, Hen. simpl truthy.
  split; [by destruct (truthy (dict_get_default d "enabled" (PBool true)))|].
  rewrite Hw'. split; apply maybe_drawn_frame.
Qed.

Lemma toggle_route_reports_new_state_witness :
  ∃ w',
    routes.toggle_agent sample_deps sample_str_exn "a1" "tok" sample_world
    = (Return (flash_redirect "Agent 'Alice' disabled" "success"), w')
    ∧ agents_file w' = store [toggled alice; bob].
Proof.
  destruct (toggle_route_reports_new_state sample_deps sample_str_exn sample_world
              [alice; bob] "a1" "tok" 0 alice) as (w' & Hrun & Hfile & _);
    [reflexivity|reflexivity|by apply holds_store|first_here|reflexivity|].
  exists w'. by split.
Defined.

(** X18. The delete route, past the guards, when some stored record has the
    id: every record with the id is removed in the one request, the file
    is written once and the answer is the success flash. *)
Theorem delete_route_removes_and_reports
    (deps : collaborators) (str_exn : exn → string) (w : world) (recs : list dict)
    (agent_id csrf_token : string) :
  is_admin deps = true → csrf_matches deps csrf_token = true →
  holds w recs → (∃ d, d ∈ recs ∧ id_is d agent_id = true) →
  routes.delete_agent deps str_exn agent_id csrf_token w
  = (Return (flash_redirect "Agent deleted successfully" "success"),
     written (store (others agent_id recs)) w)
  ∧ no_id (others agent_id recs) agent_id.
Proof.
  intros Hadmin Hcsrf Hholds (d & Hin & Hd).
  apply list_elem_of_lookup in Hin as [i Hi].
  split; [|apply others_no_id].
  unfold routes.delete_agent. rewrite past_guards by done.
  unfold try_except, bind. rewrite (delete_agent_holds w recs Hholds).
  pose proof (others_shorter agent_id recs i d Hi Hd) as Hlt.
  apply Nat.ltb_lt in Hlt. by rewrite Hlt.
Qed.

Lemma delete_route_removes_and_reports_witness :
  routes.delete_agent sample_deps sample_str_exn "a1" "tok"
    (world_with (store [alice; bob; alice]))
  = (Return (flash_redirect "Agent deleted successfully" "success"),
     written (store [bob]) (world_with (store [alice; bob; alice]))).
Proof.
  apply (delete_route_removes_and_reports sample_deps sample_str_exn
           (world_with (store [alice; bob; alice])) [alice; bob; alice] "a1" "tok");
    [reflexivity|reflexivity|by apply holds_store|].
  exists alice. split; [apply list_elem_of_here|reflexivity].
Defined.

Lemma test_room_name_length (int : Z) :
  String.length ("agent-test-" +:+ substring 0 8 (uuid.hex int)) = 19.
Proof.
  rewrite append_length, substring_length; [done|].
  unfold uuid.hex. rewrite hex_of_length. simpl. lia.
Qed.

(** X19. The test route, past the guards, for an agent that is found and
    enabled: it asks the LiveKit client for a room named agent-test- and
    eight hexadecimal digits (nineteen characters), empty timeout 300,
    two participants at most, then for a token for test-user in that room
    with a lifetime of 300, in this order and once each, and renders the
    test page with that token. When creating the room fails no token is
    asked for; when minting the token fails the room has been created and
    stays; both failures are answered with the error flash carrying the
    text of the failure. *)
Theorem test_agent_calls_livekit
    (deps : collaborators) (agent_id csrf_token : string) (w w1 : world)
    (agent : AgentConfig.t) :
  is_admin deps = true → csrf_matches deps csrf_token = true →
  AgentService.get_agent agent_id w = (Return (Some agent), w1) →
  truthy (AgentConfig.enabled agent) = true →
  let room :=
    "agent-test-" +:+ substring 0 8 (uuid.hex (uuid.uuid4 (urandom w1 (draws w1)))) in
  let metadata :=
    "{" +:+ dquote +:+ "test_agent" +:+ dquote +:+ ": " +:+ dquote
    +:+ py_str deps (AgentConfig.name agent) +:+ dquote +:+ "}" in
  let made := CreateRoom room 300 2 metadata in
  let minted := GenerateToken room "test-user" "Test User" 300 in
  String.length room = 19
  ∧ (∀ token,
       create_room deps room 300 2 metadata = Returns tt →
       generate_token deps room "test-user" "Test User" 300 = Returns token →
       ∃ w', test_agent deps agent_id csrf_token w
             = (Return (TemplateResponse "agents/test.html.j2" agent room token
                          (default "" (LIVEKIT_URL deps)) (get_csrf_token deps)), w')
         ∧ lk_calls w' = lk_calls w ++ [made; minted])
  ∧ (∀ e, create_room deps room 300 2 metadata = Fails e →
       ∃ w', test_agent deps agent_id csrf_token w
             = (Return (error_flash ("Error creating test room: " +:+ e)), w')
         ∧ lk_calls w' = lk_calls w ++ [made])
  ∧ (∀ e, create_room deps room 300 2 metadata = Returns tt →
       generate_token deps room "test-user" "Test User" 300 = Fails e →
       ∃ w', test_agent deps agent_id csrf_token w
             = (Return (error_flash ("Error creating test room: " +:+ e)), w')
         ∧ lk_calls w' = lk_calls w ++ [made; minted]).
Proof.
  intros Hadmin Hcsrf Hget Hen room metadata made minted.
  pose proof (get_agent_frame agent_id w) as (_ & _ & Hcalls).
  rewrite Hget in Hcalls. simpl in Hcalls.
  split; [apply test_room_name_length|].
  subst room metadata made minted. cbv zeta.
  split; [|split];
    (unfold test_agent; rewrite past_guards by done;
     unfold bind at 1; rewrite Hget, Hen; cbn [negb];
     unfold bind, uuid4, lk_create_room, lk_generate_token, ret;
     cbv zeta; cbn [lk_calls]).
  - intros token Hroom Htoken. rewrite Hroom, Htoken.
    eexists. split; [reflexivity|].
    cbn [lk_calls]. by rewrite Hcalls, <- app_assoc.
  - intros e Hroom. rewrite Hroom. eexists. split; [reflexivity|].
    cbn [lk_calls]. by rewrite Hcalls.
  - intros e Hroom Htoken. rewrite Hroom, Htoken.
    eexists. split; [reflexivity|].
    cbn [lk_calls]. by rewrite Hcalls, <- app_assoc.
Qed.

Lemma test_agent_calls_livekit_witness :
  ∃ agent w',
    test_agent sample_deps "a1" "tok" sample_world
    = (Return (TemplateResponse "agents/test.html.j2" agent "agent-test-00000000"
                 "jwt" "wss://lk" "tok"), w')
    ∧ lk_calls w'
      = [CreateRoom "agent-test-00000000" 300 2
           ("{" +:+ dquote +:+ "test_agent" +:+ dquote +:+ ": " +:+ dquote
            +:+ "Alice" +:+ dquote +:+ "}");
         GenerateToken "agent-test-00000000" "test-user" "Test User" 300].
Proof.
  edestruct (test_agent_calls_livekit sample_deps "a1" "tok" sample_world)
    as (_ & H & _); [reflexivity|reflexivity|reflexivity|reflexivity|].
  edestruct H as (w' & Hrun & Hcalls); [reflexivity|reflexivity|].
  eexists _, w'. split; [exact Hrun|exact Hcalls].
Defined.

(** X20. The test route never writes the agents file: whoever asks and
    whatever the LiveKit client answers, the file and the count of writes
    are afterwards what they were. And an exception of get_agent, which is
    called outside the try block, leaves the route as it is instead of
    becoming a flash, with no call made on the LiveKit client. *)
Theorem test_agent_never_writes
    (deps : collaborators) (agent_id csrf_token : string) (w : world) :
  (agents_file (test_agent deps agent_id csrf_token w).2 = agents_file w
   ∧ writes (test_agent deps agent_id csrf_token w).2 = writes w)
  ∧ (is_admin deps = true → csrf_matches deps csrf_token = true →
     ∀ e w', AgentService.get_agent agent_id w = (Raise e, w') →
       test_agent deps agent_id csrf_token w = (Raise e, w')
       ∧ lk_calls w' = lk_calls w).
Proof.
  pose proof (get_agent_frame agent_id w) as (Hfile & Hwrites & Hcalls).
  split.
  - unfold test_agent, bind, requires_admin, verify_csrf_token, raise, ret,
      uuid4, lk_create_room, lk_generate_token.
    destruct (is_admin deps); [|done].
    destruct (csrf_matches deps csrf_token); [|done].
    destruct (AgentService.get_agent agent_id w) as [[[agent|]|e] w1];
      simpl in Hfile, Hwrites; [|done|done].
    destruct (truthy (AgentConfig.enabled agent)); [|done]. cbn [negb].
    destruct (create_room deps _ _ _ _); [|done].
    by destruct (generate_token deps _ _ _ _).
  - intros Hadmin Hcsrf e w' Hget. rewrite Hget in Hcalls.
    split; [|done].
    unfold test_agent. rewrite past_guards by done.
    unfold bind. by rewrite Hget.
Qed.

Lemma test_agent_never_writes_witness :
  test_agent sample_deps "a1" "tok" (world_with (Json (PList [])))
  = (Raise AttributeError, world_with (Json (PList []))).
Proof.
  destruct (test_agent_never_writes sample_deps "a1" "tok"
              (world_with (Json (PList [])))) as [_ H].
  by apply H.
Defined.

(** * The catalogs *)

(** X21. The defaults of AgentConfig agree with the catalogs of the
    service: a configuration read from a dictionary without any field has
    a provider that is a key of both catalogs, a model listed for that
    provider and a voice listed for that provider. The keys of each catalog
    are pairwise distinct, and only the providers google and openai have
    both models and voices. *)
Theorem defaults_are_in_the_catalogs (w : world) :
  (∃ c w' provider model voice label models voices,
     AgentConfig.from_dict (PDict []) w = (Return c, w')
     ∧ AgentConfig.model_provider c = PStr provider
     ∧ AgentConfig.model c = PStr model
     ∧ AgentConfig.voice c = PStr voice
     ∧ catalog_get get_model_providers provider = Some (label, models)
     ∧ model ∈ models
     ∧ catalog_get get_voices provider = Some voices
     ∧ voice ∈ voices)
  ∧ NoDup get_model_providers.*1 ∧ NoDup get_voices.*1
  ∧ filter (λ p, is_Some (catalog_get get_voices p)) get_model_providers.*1
    = ["google"; "openai"].
Proof.
  split; [|split; [decided|split; [decided|reflexivity]]].
  eexists _, _, "google", "gemini-2.0-flash-exp", "Puck", _, _, _.
  split; [reflexivity|]. repeat split.
  - apply list_elem_of_here.
  - apply list_elem_of_here.
Qed.
